(** * Hunter X-Core bus encoder: a shallow embedding of [hunter_ctrl.cpp]

    The controller talks to the irrigation unit over one output pin.  The
    model keeps the shape of the C++ code:

    - a [byte] is a [Z] in [0, 256); every place where C++ narrows an [int]
      to a [byte] is written out with [to_byte];
    - the frame ([std::vector<byte>]) is a [list Z] read with stdpp's lookup
      and updated with stdpp's insert; indexing past the end is undefined
      behaviour in C++ and is [None] here;
    - everything the code does to the outside world ([Serial], the pins, the
      delays, the display) is recorded, in order, as a list of [event]s. *)

From Stdlib Require Import ZArith Lia DecimalString.
From stdpp Require Import base list strings.

Local Open Scope Z_scope.

(** ** Arduino primitives *)

Module Arduino.

(** Narrowing conversion to [byte] ([uint8_t]): reduction modulo 256. *)
Definition to_byte (z : Z) : Z := z mod 256.

Definition is_byte (z : Z) : Prop := 0 ≤ z < 256.

(** [String(n)] and [Serial.print(n)] of an integer: decimal digits, with a
    leading minus sign for negative numbers. *)
Definition String_of_int (z : Z) : string :=
  NilZero.string_of_int (Z.to_int z).

Inductive level := LOW | HIGH.

(** The observable actions of the program, in the order it performs them. *)
Inductive event :=
| Serial_print (s : string)
| Serial_println (s : string)
| digitalWrite (pin : Z) (v : level)
| delay (ms : Z)
| delayMicroseconds (us : Z)
| oled_updateAction (message : string)
| oled_updateHunterInfo (zone time program : Z).

(** Pin numbers of the D1 mini board, as the comments of [hunter_ctrl.h]
    give them: [D0] is GPIO 16 and [D1] is GPIO 5. *)
Definition D0 : Z := 16.
Definition D1 : Z := 5.

End Arduino.
Export Arduino.

#[global] Instance level_eq_dec : EqDecision level.
Proof. solve_decision. Defined.

#[global] Instance event_eq_dec : EqDecision event.
Proof. solve_decision. Defined.

(** ** Constants of [hunter_ctrl.h] and [hunter_ctrl.cpp] *)

Definition PUMP_PIN : Z := D1.
Definition HUNTER_PIN : Z := D0.
Definition HUNTER_ONE : level := HIGH.
Definition HUNTER_ZERO : level := LOW.
Definition START_INTERVAL : Z := 900.
Definition SHORT_INTERVAL : Z := 208.
Definition LONG_INTERVAL : Z := 1875.

(** ** HunterBitfield *)

(** The [while (len > 0)] loop, by recursion on the remaining [len].  [pos]
    is a [byte], so [pos++] wraps at 256; [bits[pos / 8]] outside the vector
    is undefined behaviour ([None]). *)
Fixpoint HunterBitfield_loop (len : nat) (bits : list Z) (pos val : Z)
  : option (list Z) :=
  match len with
  | O => Some bits
  | S len' =>
      let idx := Z.to_nat (pos / 8) in
      cur ← bits !! idx;
      let mask := Z.shiftr 0x80 (pos mod 8) in
      let new :=
        if decide (Z.land val 0x1 ≠ 0)
        then Z.lor cur mask
        else Z.land cur (Z.lnot mask) in
      HunterBitfield_loop len' (<[idx := to_byte new]> bits)
                          (to_byte (pos + 1)) (Z.shiftr val 1)
  end.

Definition HunterBitfield (bits : list Z) (pos val len : Z) : option (list Z) :=
  HunterBitfield_loop (Z.to_nat len) bits pos val.

(** ** HunterLow, HunterHigh, HunterWrite *)

Definition HunterLow : list event :=
  [ digitalWrite HUNTER_PIN HUNTER_ONE; delayMicroseconds SHORT_INTERVAL;
    digitalWrite HUNTER_PIN HUNTER_ZERO; delayMicroseconds LONG_INTERVAL ].

Definition HunterHigh : list event :=
  [ digitalWrite HUNTER_PIN HUNTER_ONE; delayMicroseconds LONG_INTERVAL;
    digitalWrite HUNTER_PIN HUNTER_ZERO; delayMicroseconds SHORT_INTERVAL ].

(** The inner [for (byte inner = 0; inner < 8; inner++)] loop: test the top
    bit, then [sendByte <<= 1] on a byte. *)
Fixpoint HunterWrite_inner (inner : nat) (sendByte : Z) : list event :=
  match inner with
  | O => []
  | S inner' =>
      (if decide (Z.land sendByte 0x80 ≠ 0) then HunterHigh else HunterLow)
      ++ HunterWrite_inner inner' (to_byte (Z.shiftl sendByte 1))
  end.

Definition HunterWrite (buffer : list Z) (extrabit : bool) : list event :=
  [ digitalWrite HUNTER_PIN HUNTER_ONE; delay 325;
    digitalWrite HUNTER_PIN HUNTER_ZERO; delay 65 ]
  ++ [ digitalWrite HUNTER_PIN HUNTER_ONE; delayMicroseconds START_INTERVAL;
       digitalWrite HUNTER_PIN HUNTER_ZERO; delayMicroseconds SHORT_INTERVAL ]
  ++ flat_map (HunterWrite_inner 8) buffer
  ++ (if extrabit then HunterHigh else [])
  ++ HunterLow.

(** ** HunterStart, HunterStop, HunterProgram *)

Definition zone_base_frame : list Z :=
  [ 0xff; 0x00; 0x00; 0x00; 0x10; 0x00; 0x00; 0x04; 0x00; 0x00; 0x01; 0x00;
    0x01; 0xb8; 0x3f ].

Definition program_base_frame : list Z :=
  [ 0xff; 0x40; 0x03; 0x96; 0x09; 0xbd; 0x7f ].

(** The [Serial.print] lines at the top of [HunterStart]. *)
Definition HunterStart_banner (zone time : Z) : list event :=
  [ Serial_print "HunterStart zone "; Serial_print (String_of_int zone);
    Serial_print " for "; Serial_print (String_of_int time);
    Serial_println " min" ].

(** The field writes of [HunterStart], in source order.  The arguments are
    [int] expressions narrowed to the [byte] parameters of
    [HunterBitfield]. *)
Definition HunterStart_fields (zone time : Z) (buffer : list Z)
  : option (list Z) :=
  buffer ← (if decide (zone > 12)
            then HunterBitfield buffer 9 0x1 2
            else HunterBitfield buffer 9 0x2 2);
  buffer ← HunterBitfield buffer 23 (to_byte (zone + 0x17)) 7;
  buffer ← HunterBitfield buffer 36 (to_byte (zone + 0x17)) 7;
  buffer ← HunterBitfield buffer 49 (to_byte (zone + 0x23)) 7;
  buffer ← HunterBitfield buffer 62 (to_byte (zone + 0x23)) 7;
  buffer ← HunterBitfield buffer 75 (to_byte (zone + 0x2f)) 7;
  buffer ← HunterBitfield buffer 88 (to_byte (zone + 0x2f)) 7;
  buffer ← HunterBitfield buffer 31 time 4;
  buffer ← HunterBitfield buffer 44 (to_byte (Z.shiftr time 4)) 4;
  buffer ← HunterBitfield buffer 57 time 4;
  buffer ← HunterBitfield buffer 70 (to_byte (Z.shiftr time 4)) 4;
  buffer ← HunterBitfield buffer 83 time 4;
  buffer ← HunterBitfield buffer 96 (to_byte (Z.shiftr time 4)) 4;
  HunterBitfield buffer 109 (to_byte (zone - 1)) 4.

(** [HunterStart(byte zone, byte time)].  The result is the list of events
    of the call, or [None] if the call runs into undefined behaviour. *)
Definition HunterStart (zone time : Z) : option (list event) :=
  let buffer := zone_base_frame in
  if decide (zone < 1 ∨ zone > 48) then
    Some (HunterStart_banner zone time ++ [Serial_println "invalid zone"])
  else if decide (time < 0 ∨ time > 240) then
    Some (HunterStart_banner zone time ++ [Serial_println "invalid time"])
  else
    buffer ← HunterStart_fields zone time buffer;
    Some (HunterStart_banner zone time ++ HunterWrite buffer true).

Definition HunterStop (zone : Z) : option (list event) :=
  rest ← HunterStart zone 0;
  Some ([ Serial_print "HunterStop zone "; Serial_print (String_of_int zone);
          Serial_print ": " ] ++ rest).

Definition HunterProgram (num : Z) : option (list event) :=
  let buffer := program_base_frame in
  if decide (num < 1 ∨ num > 4) then
    Some [Serial_println "invalid program"]
  else
    buffer ← HunterBitfield buffer 31 (to_byte (num - 1)) 2;
    Some (HunterWrite buffer false).

(** ** The class HUNTER_CTRL *)

Section HUNTER_CTRL.

(** [USE_PUMP] is the configuration switch of [hunter_ctrl.h] (shipped as
    [false], "set true to control a pump").  [oled] tells whether the
    display pointer of the object is non-null. *)
Variable USE_PUMP : bool.
Variable oled : bool.

Definition switchPump (onOff : bool) : list event :=
  if USE_PUMP then
    if onOff
    then [ Serial_println "Set GPIO5 high."; digitalWrite 5 HIGH ]
    else [ Serial_println "Set GPIO5 low."; digitalWrite 5 LOW ]
  else [].

Definition startZone_msg (zone time : Z) : string :=
  "Watering zone " +:+ String_of_int zone +:+ " -> " +:+ String_of_int time
  +:+ " min".

(** The events of [startZone] before its call of [HunterStart]: the message
    on [Serial], the display update if there is a display, the pump. *)
Definition startZone_head (zone time : Z) : list event :=
  let msg := startZone_msg zone time in
  [ Serial_println msg ]
  ++ (if oled
      then [ oled_updateAction msg; oled_updateHunterInfo zone time 0 ]
      else [])
  ++ (if decide (time ≠ 0) then switchPump true else switchPump false).

(** [startZone(const int zone, const int time)]: the arguments are [int]s
    and are narrowed by the [(byte)] casts of the last line. *)
Definition startZone (zone time : Z) : option (list event) :=
  rest ← HunterStart (to_byte zone) (to_byte time);
  Some (startZone_head zone time ++ rest).

Definition startProgram_msg (programID : Z) : string :=
  "Watering prog " +:+ String_of_int programID +:+ " ...".

Definition startProgram_head (programID : Z) : list event :=
  let msg := startProgram_msg programID in
  [ Serial_println msg ]
  ++ (if oled
      then [ oled_updateAction msg; oled_updateHunterInfo 0 0 programID ]
      else []).

(** [startProgram(const int programID)]: the [int] is narrowed to the [byte]
    parameter of [HunterProgram]. *)
Definition startProgram (programID : Z) : option (list event) :=
  rest ← HunterProgram (to_byte programID);
  Some (startProgram_head programID ++ rest).

End HUNTER_CTRL.

(** ** Observing frames *)

(** Bit [i] of a frame, counted from the first byte and, inside a byte, from
    its most significant bit: the order in which [HunterWrite] sends them. *)
Definition getbit (bits : list Z) (i : Z) : option bool :=
  cur ← bits !! Z.to_nat (i / 8);
  Some (Z.testbit cur (7 - i mod 8)).

(** All bits of a frame, in transmission order. *)
Definition byte_bits (b : Z) : list bool :=
  (λ k, Z.testbit b (7 - k)) <$> [0; 1; 2; 3; 4; 5; 6; 7].

Definition frame_bits (buffer : list Z) : list bool :=
  flat_map byte_bits buffer.

(** The reader that mirrors [HunterBitfield]: the bit at [pos] is bit 0 of
    the value, the bit at [pos + 1] is bit 1, and so on. *)
Fixpoint readField_loop (width : nat) (bits : list Z) (pos : Z) : option Z :=
  match width with
  | O => Some 0
  | S width' =>
      b ← getbit bits pos;
      hi ← readField_loop width' bits (pos + 1);
      Some (Z.b2z b + 2 * hi)
  end.

Definition readField (bits : list Z) (pos width : Z) : option Z :=
  readField_loop (Z.to_nat width) bits pos.

(** What a field write promises: the frame keeps its length, the bits of
    [pos, pos + len) hold the low bits of [val], all others are as before. *)
Definition field_written (bits bits' : list Z) (pos val len : Z) : Prop :=
  length bits' = length bits ∧
  ∀ i, 0 ≤ i < 8 * Z.of_nat (length bits) →
       getbit bits' i =
         if decide (pos ≤ i < pos + len)
         then Some (Z.testbit val (i - pos))
         else getbit bits i.

(** The contract of one field write, for the frame it is applied to. *)
Definition writeField_contract (bits : list Z) (pos val len : Z) : Prop :=
  ∃ bits', HunterBitfield bits pos val len = Some bits'
           ∧ field_written bits bits' pos val len.

(** The layout of a zone frame as the protocol description lists it:
    (offset, width, value).  The nibble of [zone - 1] is its low four bits. *)
Definition zone_layout (zone time : Z) : list (Z * Z * Z) :=
  [ (9, 2, if decide (zone > 12) then 1 else 2);
    (23, 7, zone + 0x17); (36, 7, zone + 0x17);
    (49, 7, zone + 0x23); (62, 7, zone + 0x23);
    (75, 7, zone + 0x2F); (88, 7, zone + 0x2F);
    (31, 4, time mod 16); (57, 4, time mod 16); (83, 4, time mod 16);
    (44, 4, time / 16); (70, 4, time / 16); (96, 4, time / 16);
    (109, 4, (zone - 1) mod 16) ].

Definition in_field (i : Z) (f : Z * Z * Z) : Prop :=
  f.1.1 ≤ i < f.1.1 + f.1.2.

(** Decoder of a zone frame from the documented offsets.  Zone and duration
    are taken from the fields at 23, 31 and 44; the fields at 9, 49, 75 and
    109 must agree with them. *)
Definition decode_zone_frame (frame : list Z) : option (Z * Z) :=
  group ← readField frame 9 2;
  z17 ← readField frame 23 7;
  z23 ← readField frame 49 7;
  z2f ← readField frame 75 7;
  lo ← readField frame 31 4;
  hi ← readField frame 44 4;
  zm1 ← readField frame 109 4;
  let zone := z17 - 0x17 in
  let time := lo + 16 * hi in
  if decide (z23 - 0x23 = zone ∧ z2f - 0x2F = zone
             ∧ zm1 = (zone - 1) mod 16
             ∧ group = if decide (zone > 12) then 1 else 2)
  then Some (zone, time)
  else None.

(** ** Observing traces *)

(** The waveform of a transmission in the words of the protocol
    description. *)
Module Wire.

Definition drive_ms (v : level) (ms : Z) : list event :=
  [ digitalWrite HUNTER_PIN v; delay ms ].

Definition drive_us (v : level) (us : Z) : list event :=
  [ digitalWrite HUNTER_PIN v; delayMicroseconds us ].

Definition reset : list event := drive_ms HIGH 325 ++ drive_ms LOW 65.

Definition start : list event := drive_us HIGH 900 ++ drive_us LOW 208.

Definition pulse (b : bool) : list event :=
  if b
  then drive_us HIGH 1875 ++ drive_us LOW 208
  else drive_us HIGH 208 ++ drive_us LOW 1875.

Definition waveform (buffer : list Z) (extrabit : bool) : list event :=
  reset ++ start
  ++ flat_map pulse (frame_bits buffer)
  ++ (if extrabit then pulse true else [])
  ++ pulse false.

(** Reads a run of bit pulses back; [None] if the events are not a run of
    well-formed pulses. *)
Fixpoint decode_pulses (t : list event) : option (list bool) :=
  match t with
  | [] => Some []
  | digitalWrite p HIGH :: delayMicroseconds hi
      :: digitalWrite q LOW :: delayMicroseconds lo :: rest =>
      if decide (p = HUNTER_PIN ∧ q = HUNTER_PIN ∧ hi = 1875 ∧ lo = 208)
      then cons true <$> decode_pulses rest
      else if decide (p = HUNTER_PIN ∧ q = HUNTER_PIN
                      ∧ hi = 208 ∧ lo = 1875)
      then cons false <$> decode_pulses rest
      else None
  | _ => None
  end.

End Wire.

(** Events on the bus line: writes to [HUNTER_PIN] and the delays that time
    them. *)
Definition is_bus (e : event) : bool :=
  match e with
  | digitalWrite pin _ => bool_decide (pin = HUNTER_PIN)
  | delay _ | delayMicroseconds _ => true
  | _ => false
  end.

Definition is_display (e : event) : bool :=
  match e with
  | oled_updateAction _ | oled_updateHunterInfo _ _ _ => true
  | _ => false
  end.

Definition is_pump (e : event) : bool :=
  match e with
  | digitalWrite pin _ => bool_decide (pin = PUMP_PIN)
  | _ => false
  end.

Definition bus_events (t : list event) : list event := filter is_bus t.

(** The call ran to completion and sent [frame] with [HunterWrite], the
    events before the transmission leaving the bus alone. *)
Definition transmits (r : option (list event)) (frame : list Z)
    (extrabit : bool) : Prop :=
  ∃ pre, r = Some (pre ++ HunterWrite frame extrabit) ∧ bus_events pre = [].

(** Every [P] event of the trace comes before every [Q] event. *)
Definition precedes (P Q : event → bool) (t : list event) : Prop :=
  ∀ (i j : nat) a b,
    t !! i = Some a → t !! j = Some b → P a = true → Q b = true → (i < j)%nat.

(** ** Further observations of traces *)

(** The time a trace spends in [delay] and [delayMicroseconds], in
    microseconds. *)
Definition duration_us (t : list event) : Z :=
  foldr (λ e acc,
           match e with
           | delay ms => 1000 * ms + acc
           | delayMicroseconds us => us + acc
           | _ => acc
           end) 0 t.

(** The pin writes of a trace, in order. *)
Definition pin_writes (t : list event) : list (Z * level) :=
  flat_map (λ e, match e with
                 | digitalWrite pin v => [(pin, v)]
                 | _ => []
                 end) t.

(** The bits [val] contributes to a field of [len] bits, in the order in
    which they lie in the frame. *)
Definition field_bits (val len : Z) : list bool :=
  Z.testbit val <$> seqZ 0 len.

(** ** The display: class OLED of [oled.cpp]

    [startZone] and [startProgram] report to the display through
    [updateAction] and [updateHunterInfo].  The text buffer
    [char lines[10][40]] is a list of rows of characters; a C string ends at
    its first NUL.  [millis()] is an input: each function takes the values
    its calls of [millis()] return. *)

Module Oled.

Local Abbreviation ascii := Ascii.ascii.

Definition MAX_LINES : Z := 5.
Definition MAX_PAGES : Z := 2.
Definition ARRAY_LEN : Z := MAX_LINES * MAX_PAGES.
Definition MAX_CHAR_IN_LINE : Z := 40.
Definition PAGE_DURATION : Z := 2000.

Definition NUL : ascii := Ascii.zero.

Record OLED := {
  lines : list (list ascii);
  lineIndex : Z;
  lastPageUpdate : Z;
  dataChanged : bool;
}.

Inductive font := ArialMT_Plain_10 | ArialMT_Plain_16.

(** The calls made on the [SSD1306Wire] driver. *)
Inductive display_event :=
| display_init
| display_clear
| display_flipScreenVertically
| display_setFont (f : font)
| display_setTextAlignment_LEFT
| display_drawString (x y : Z) (text : string)
| display_display.

(** Conversion of an [unsigned long] to the [long] member
    [lastPageUpdate]. *)
Definition to_long (z : Z) : Z := (z + 2 ^ 31) mod 2 ^ 32 - 2 ^ 31.

(** The [n] characters that [strncpy] writes: the characters of the source
    up to its first NUL (the end of the list is the terminator of a string
    argument), cut after [n], and filled up with NUL. *)
Fixpoint strncpy_chars (src : list ascii) (n : nat) : list ascii :=
  match n with
  | O => []
  | S n' =>
      match src with
      | c :: src' =>
          if decide (c = NUL) then replicate (S n') NUL
          else c :: strncpy_chars src' n'
      | [] => replicate (S n') NUL
      end
  end.

Definition strncpy (dest src : list ascii) (n : Z) : list ascii :=
  strncpy_chars src (Z.to_nat n) ++ drop (Z.to_nat n) dest.

(** Reading a row as a C string; [None] if the row holds no NUL, in which
    case the read runs out of the row. *)
Fixpoint c_str (row : list ascii) : option string :=
  match row with
  | [] => None
  | c :: row' =>
      if decide (c = NUL) then Some EmptyString
      else String c <$> c_str row'
  end.

Definition line_text (st : OLED) (k : Z) : option string :=
  row ← lines st !! Z.to_nat k;
  c_str row.

(** [updateScreen()]; [millis1] and [millis2] are the results of its two
    calls of [millis()]. *)
Definition updateScreen (millis1 millis2 : Z) (st : OLED)
  : option (OLED * list display_event) :=
  let st :=
    if decide ((millis1 - lastPageUpdate st) mod 2 ^ 32 > PAGE_DURATION)
    then
      let idx := (lineIndex st + 1) mod 256 in
      {| lines := lines st;
         lineIndex := if decide (idx > MAX_PAGES - 1) then 0 else idx;
         lastPageUpdate := to_long millis2;
         dataChanged := true |}
    else st in
  if dataChanged st then
    l0 ← line_text st (0 + lineIndex st * MAX_LINES);
    l1 ← line_text st (1 + lineIndex st * MAX_LINES);
    l2 ← line_text st (2 + lineIndex st * MAX_LINES);
    l3 ← line_text st (3 + lineIndex st * MAX_LINES);
    l4 ← line_text st (4 + lineIndex st * MAX_LINES);
    Some ({| lines := lines st; lineIndex := lineIndex st;
             lastPageUpdate := lastPageUpdate st; dataChanged := false |},
          [ display_clear;
            display_drawString 0 0 l0; display_drawString 0 13 l1;
            display_drawString 0 25 l2; display_drawString 0 38 l3;
            display_drawString 0 51 l4;
            display_display ])
  else Some (st, []).

(** [strncpy(lines[i], text, MAX_CHAR_IN_LINE - 1)] *)
Definition set_line (i : nat) (text : list ascii) (ls : list (list ascii))
  : option (list (list ascii)) :=
  row ← ls !! i;
  Some (<[i := strncpy row text (MAX_CHAR_IN_LINE - 1)]> ls).

(** [strncpy(lines[j], lines[i], MAX_CHAR_IN_LINE)] *)
Definition copy_line (j i : nat) (ls : list (list ascii))
  : option (list (list ascii)) :=
  src ← ls !! i;
  row ← ls !! j;
  Some (<[j := strncpy row src MAX_CHAR_IN_LINE]> ls).

Definition changed (st : OLED) (ls : list (list ascii)) : OLED :=
  {| lines := ls; lineIndex := lineIndex st;
     lastPageUpdate := lastPageUpdate st; dataChanged := true |}.

Definition updateAction (message : string) (millis1 millis2 : Z) (st : OLED)
  : option (OLED * list display_event) :=
  ls ← set_line 4 (String.list_ascii_of_string message) (lines st);
  ls ← copy_line 9 4 ls;
  updateScreen millis1 millis2 (changed st ls).

Definition updateHunterInfo_message (zone time program : Z) : string :=
  let message := "Zone: " +:+ String_of_int zone in
  let onOffMsg :=
    if decide (time ≠ 0)
    then " on for " +:+ String_of_int time +:+ " min"
    else " off" in
  let message := message +:+ onOffMsg in
  if decide (program ≠ 0)
  then "Prog " +:+ String_of_int program +:+ " started"
  else message.

Definition updateHunterInfo (zone time program : Z) (millis1 millis2 : Z)
    (st : OLED) : option (OLED * list display_event) :=
  let message := updateHunterInfo_message zone time program in
  ls ← set_line 0 (String.list_ascii_of_string message) (lines st);
  ls ← copy_line 5 0 ls;
  updateScreen millis1 millis2 (changed st ls).

Definition updateWifiInfo (ip ssid : string) (millis1 millis2 : Z)
    (st : OLED) : option (OLED * list display_event) :=
  ls ← set_line 1 (String.list_ascii_of_string ("SSID: " +:+ ssid)) (lines st);
  ls ← set_line 6 (String.list_ascii_of_string ("Own IP: " +:+ ip)) ls;
  updateScreen millis1 millis2 (changed st ls).

Definition updateMqttInfo (ip : string) (port : Z) (connected : bool)
    (millis1 millis2 : Z) (st : OLED) : option (OLED * list display_event) :=
  let status := if connected then "" else "X - " in
  ls ← set_line 2 (String.list_ascii_of_string (status +:+ "Broker: " +:+ ip))
         (lines st);
  ls ← set_line 7 (String.list_ascii_of_string
                     (status +:+ "MQTT port: " +:+ String_of_int port)) ls;
  updateScreen millis1 millis2 (changed st ls).

(** The loop [for (int i = 1; i < ARRAY_LEN; i++)] of [initialize], by
    recursion on the number of rows left. *)
Fixpoint initialize_loop (count : nat) (i : nat) (ls : list (list ascii))
  : option (list (list ascii)) :=
  match count with
  | O => Some ls
  | S count' =>
      ls ← set_line i [] ls;
      initialize_loop count' (S i) ls
  end.

Definition initialize (st : OLED) : option (OLED * list display_event) :=
  ls ← initialize_loop (Z.to_nat (ARRAY_LEN - 1)) 1 (lines st);
  Some (changed st ls,
        [ display_init; display_clear; display_flipScreenVertically;
          display_setFont ArialMT_Plain_16; display_setTextAlignment_LEFT;
          display_setFont ArialMT_Plain_10 ]).

(** The state the code relies on: ten rows of forty characters, each with
    NUL in its last place, and a page index of 0 or 1. *)
Definition terminated (row : list ascii) : Prop :=
  length row = 40%nat ∧ row !! 39%nat = Some NUL.

Definition rows_ok (ls : list (list ascii)) : Prop :=
  length ls = 10%nat ∧ Forall terminated ls.

Definition ok (st : OLED) : Prop :=
  length (lines st) = 10%nat ∧ Forall terminated (lines st)
  ∧ 0 ≤ lineIndex st ≤ 1.

(** [evs] is one redraw of the current page of [st]: clear, the five rows
    of the page at their y positions, display. *)
Definition drawn (st : OLED) (evs : list display_event) : Prop :=
  ∃ l0 l1 l2 l3 l4,
    evs = [ display_clear;
            display_drawString 0 0 l0; display_drawString 0 13 l1;
            display_drawString 0 25 l2; display_drawString 0 38 l3;
            display_drawString 0 51 l4;
            display_display ]
    ∧ line_text st (0 + lineIndex st * MAX_LINES) = Some l0
    ∧ line_text st (1 + lineIndex st * MAX_LINES) = Some l1
    ∧ line_text st (2 + lineIndex st * MAX_LINES) = Some l2
    ∧ line_text st (3 + lineIndex st * MAX_LINES) = Some l3
    ∧ line_text st (4 + lineIndex st * MAX_LINES) = Some l4.

(** A display object with all text zero-filled, page 0, nothing to draw. *)
Definition blank : OLED :=
  {| lines := replicate 10 (replicate 40 NUL); lineIndex := 0;
     lastPageUpdate := 0; dataChanged := false |}.

(** The text a line shows for a source string: its characters up to the
    first NUL, cut after 39. *)
Fixpoint c_content (src : list ascii) : list ascii :=
  match src with
  | [] => []
  | c :: src' => if decide (c = NUL) then [] else c :: c_content src'
  end.

Definition shown (text : string) : string :=
  String.string_of_list_ascii (take 39 (c_content (String.list_ascii_of_string text))).

End Oled.

(** * Properties *)

(** [lia] reasons about division and remainder by constants. *)
Ltac Zify.zify_post_hook ::= Z.to_euclidean_division_equations.

(** ** Bits of bytes *)

Section Bits.

Lemma testbit_to_byte (x k : Z) :
  k < 8 → Z.testbit (to_byte x) k = Z.testbit x k.
Proof.
  intros Hk. unfold to_byte. change 256 with (2 ^ 8).
  by apply Z.mod_pow2_bits_low.
Qed.

Lemma to_byte_small (x : Z) : is_byte x → to_byte x = x.
Proof. unfold is_byte, to_byte. intros H. by apply Z.mod_small. Qed.

Lemma to_byte_is_byte (x : Z) : is_byte (to_byte x).
Proof. unfold is_byte, to_byte. apply Z.mod_pos_bound. lia. Qed.

Lemma testbit_mask (m k : Z) :
  0 ≤ m → 0 ≤ k →
  Z.testbit (Z.shiftr 0x80 m) k = bool_decide (k = 7 - m).
Proof.
  intros Hm Hk. rewrite Z.shiftr_spec by done.
  change 0x80 with (2 ^ 7). rewrite Z.pow2_bits_eqb by lia.
  case_bool_decide; [apply Z.eqb_eq | apply Z.eqb_neq]; lia.
Qed.

Lemma land_1_testbit (val : Z) :
  Z.land val 0x1 ≠ 0 ↔ Z.testbit val 0 = true.
Proof.
  change 0x1 with (Z.ones 1). rewrite Z.land_ones by lia.
  change (2 ^ 1) with 2. rewrite <- Z.bit0_mod.
  destruct (Z.testbit val 0); simpl; split; (done || lia).
Qed.

(** One iteration of [HunterBitfield] on the byte that holds [pos]. *)
Lemma set_or_clear_testbit (cur val m k : Z) :
  0 ≤ m → 0 ≤ k < 8 →
  Z.testbit
    (to_byte (if decide (Z.land val 0x1 ≠ 0)
              then Z.lor cur (Z.shiftr 0x80 m)
              else Z.land cur (Z.lnot (Z.shiftr 0x80 m)))) k
  = if decide (k = 7 - m) then Z.testbit val 0 else Z.testbit cur k.
Proof.
  intros Hm Hk. rewrite testbit_to_byte by lia.
  destruct (decide (Z.land val 0x1 ≠ 0)) as [Hv|Hv].
  - apply land_1_testbit in Hv. rewrite Z.lor_spec, testbit_mask by lia.
    case_decide; case_bool_decide; try done.
    + by rewrite Hv, orb_true_r.
    + by rewrite orb_false_r.
  - assert (Z.testbit val 0 = false) as Hv'.
    { destruct (Z.testbit val 0) eqn:E; [|done].
      by apply land_1_testbit in E. }
    rewrite Z.land_spec, Z.lnot_spec, testbit_mask by lia.
    case_decide; case_bool_decide; try done.
    + by rewrite Hv', andb_false_r.
    + by rewrite andb_true_r.
Qed.

End Bits.

(** ** Field writes *)

Section Bitfield.

Implicit Types bits : list Z.

Lemma getbit_length bits bits' (i : Z) :
  length bits' = length bits → is_Some (getbit bits i) →
  is_Some (getbit bits' i).
Proof.
  unfold getbit. intros Hlen [b Hb].
  destruct (bits !! Z.to_nat (i / 8)) as [c|] eqn:E; [|done].
  apply lookup_lt_Some in E. rewrite <- Hlen in E.
  apply lookup_lt_is_Some_2 in E as [c' ->]. by eexists.
Qed.

Lemma getbit_insert bits (idx : nat) (x i : Z) :
  (idx < length bits)%nat →
  getbit (<[idx := x]> bits) i =
    if decide (Z.to_nat (i / 8) = idx)
    then Some (Z.testbit x (7 - i mod 8))
    else getbit bits i.
Proof.
  intros Hidx. unfold getbit. case_decide as Hi.
  - subst idx. by rewrite list_lookup_insert_eq.
  - by rewrite list_lookup_insert_ne.
Qed.

(** One iteration of the loop: bit [pos] becomes bit 0 of [val]. *)
Lemma getbit_step bits (pos val cur i : Z) :
  0 ≤ pos → 0 ≤ i →
  bits !! Z.to_nat (pos / 8) = Some cur →
  getbit (<[Z.to_nat (pos / 8) :=
             to_byte (if decide (Z.land val 0x1 ≠ 0)
                      then Z.lor cur (Z.shiftr 0x80 (pos mod 8))
                      else Z.land cur (Z.lnot (Z.shiftr 0x80 (pos mod 8))))]>
            bits) i
  = if decide (i = pos) then Some (Z.testbit val 0) else getbit bits i.
Proof.
  intros Hpos Hi Hcur.
  rewrite getbit_insert by (by eapply lookup_lt_Some).
  destruct (decide (Z.to_nat (i / 8) = Z.to_nat (pos / 8))) as [Hsame|Hother].
  - rewrite set_or_clear_testbit by lia.
    unfold getbit. rewrite Hsame, Hcur. cbn.
    repeat case_decide; (done || lia).
  - rewrite decide_False; [done|]. by intros ->.
Qed.

(** The loop of [HunterBitfield], as long as the byte-sized position
    counter does not wrap. *)
Lemma HunterBitfield_loop_spec (len : nat) :
  ∀ bits pos val,
    0 ≤ pos → pos + Z.of_nat len ≤ 256 →
    pos + Z.of_nat len ≤ 8 * Z.of_nat (length bits) →
    ∃ bits',
      HunterBitfield_loop len bits pos val = Some bits'
      ∧ length bits' = length bits
      ∧ ∀ i, 0 ≤ i →
             getbit bits' i =
               if decide (pos ≤ i < pos + Z.of_nat len)
               then Some (Z.testbit val (i - pos))
               else getbit bits i.
Proof.
  induction len as [|len IH]; intros bits pos val Hpos Hwrap Hfit.
  - exists bits. split; [done|]. split; [done|]. intros i Hi.
    case_decide; [lia | done].
  - cbn [HunterBitfield_loop].
    assert (Z.to_nat (pos / 8) < length bits)%nat as Hidx.
    { apply Nat2Z.inj_lt. rewrite Z2Nat.id by (apply Z.div_pos; lia).
      apply Z.div_lt_upper_bound; lia. }
    destruct (lookup_lt_is_Some_2 _ _ Hidx) as [cur Hcur].
    rewrite Hcur. cbn [mbind option_bind].
    assert (len = 0%nat ∨ to_byte (pos + 1) = pos + 1) as [->|Hnext].
    { destruct len; [by left|right]. apply to_byte_small.
      unfold is_byte. lia. }
    + eexists. split; [done|]. rewrite length_insert. split; [done|].
      intros i Hi. rewrite getbit_step by done.
      repeat case_decide; try lia; [|done].
      subst i. by rewrite Z.sub_diag.
    + rewrite Hnext.
      destruct (IH (<[Z.to_nat (pos / 8) :=
                        to_byte (if decide (Z.land val 0x1 ≠ 0)
                                 then Z.lor cur (Z.shiftr 0x80 (pos mod 8))
                                 else Z.land cur
                                        (Z.lnot (Z.shiftr 0x80 (pos mod 8))))]>
                      bits) (pos + 1) (Z.shiftr val 1))
        as (bits' & Hrun & Hlen & Hbits);
        [lia | lia | rewrite length_insert; lia |].
      exists bits'. split; [done|].
      rewrite Hlen, length_insert. split; [done|].
      intros i Hi. rewrite Hbits, getbit_step by done.
      repeat case_decide; try lia; try done.
      all: rewrite ?Z.shiftr_spec by lia; do 2 f_equal; lia.
Qed.

Lemma HunterBitfield_spec bits (pos val len : Z) :
  0 ≤ pos → 0 ≤ len → pos + len ≤ 256 →
  pos + len ≤ 8 * Z.of_nat (length bits) →
  ∃ bits',
    HunterBitfield bits pos val len = Some bits'
    ∧ length bits' = length bits
    ∧ ∀ i, 0 ≤ i →
           getbit bits' i =
             if decide (pos ≤ i < pos + len)
             then Some (Z.testbit val (i - pos))
             else getbit bits i.
Proof.
  intros Hpos Hlen Hwrap Hfit. unfold HunterBitfield.
  destruct (HunterBitfield_loop_spec (Z.to_nat len) bits pos val)
    as (bits' & Hrun & Hl & Hbits); [lia..|].
  exists bits'. rewrite Z2Nat.id in Hbits by done. done.
Qed.

End Bitfield.

(** A three-bit field across a byte boundary: bit 6 gets bit 0 of the
    value, bit 7 gets bit 1, bit 8 (the top bit of the next byte) gets
    bit 2. *)
Example HunterBitfield_across_bytes :
  HunterBitfield [0x00; 0x00] 6 0x5 3 = Some [0x02; 0x80].
Proof. reflexivity. Qed.

(** Clearing bits: the value 0 written over set bits. *)
Example HunterBitfield_clears :
  HunterBitfield [0xff; 0xff] 4 0 6 = Some [0xf0; 0x3f].
Proof. reflexivity. Qed.

(** Past the end of the vector the C++ code has no defined behaviour. *)
Example HunterBitfield_out_of_range :
  HunterBitfield [0x00] 7 0x3 2 = None.
Proof. reflexivity. Qed.

(** C7, as the code has it: for byte-sized [pos], [val] and [len] with
    [pos + len] inside the buffer and not beyond 256 (the position counter is
    a byte), [HunterBitfield] succeeds, bit [pos + k] of the buffer becomes
    bit [k] of [val] for every [k < len], and all other bits and the length
    of the buffer are unchanged. *)
Theorem HunterBitfield_writes_field (bits : list Z) (pos val len : Z) :
  is_byte pos → is_byte val → is_byte len →
  pos + len ≤ 8 * Z.of_nat (length bits) →
  pos + len ≤ 256 →
  writeField_contract bits pos val len.
Proof.
  intros [Hpos _] _ [Hlen _] Hfit Hwrap.
  destruct (HunterBitfield_spec bits pos val len)
    as (bits' & Hrun & Hl & Hbits); [done..|].
  exists bits'. split; [done|]. split; [done|].
  intros i [Hi _]. by apply Hbits.
Qed.

Lemma HunterBitfield_writes_field_witness :
  writeField_contract zone_base_frame 9 0x1 2.
Proof.
  apply (HunterBitfield_writes_field zone_base_frame 9 0x1 2);
    unfold is_byte; simpl; lia.
Defined.

(** C7, as stated, fails: in a 33-byte buffer the two-bit field at position
    255 fits ([255 + 2 ≤ 264]), but after writing bit 255 the byte-sized
    position wraps to 0, so bit 0 is overwritten and bit 256 is not
    written. *)
Lemma HunterBitfield_position_wraps :
  is_byte 255 ∧ is_byte 3 ∧ is_byte 2
  ∧ 255 + 2 ≤ 8 * Z.of_nat (length (replicate 33 0))
  ∧ HunterBitfield (replicate 33 0) 255 3 2
    = Some (0x80 :: replicate 30 0 ++ [0x01; 0x00])
  ∧ ¬ writeField_contract (replicate 33 0) 255 3 2.
Proof.
  repeat split; try (unfold is_byte; simpl; lia).
  intros (bits' & Hrun & _ & Hbits).
  vm_compute in Hrun. injection Hrun as <-.
  assert (0 ≤ 0 < 8 * Z.of_nat (length (replicate 33 0))) as H0
    by (simpl; lia).
  specialize (Hbits 0 H0). by vm_compute in Hbits.
Qed.

(** ** The waveform of a transmission *)

Section Waveform.

Lemma HunterHigh_pulse : HunterHigh = Wire.pulse true.
Proof. reflexivity. Qed.

Lemma HunterLow_pulse : HunterLow = Wire.pulse false.
Proof. reflexivity. Qed.

Lemma top_bit (x : Z) : Z.land x 0x80 ≠ 0 ↔ Z.testbit x 7 = true.
Proof.
  split.
  - intros H. destruct (Z.testbit x 7) eqn:E; [done|]. exfalso. apply H.
    apply Z.bits_inj'. intros n Hn. rewrite Z.land_spec, Z.bits_0.
    change 0x80 with (2 ^ 7). rewrite Z.pow2_bits_eqb by lia.
    destruct (Z.eqb_spec 7 n) as [<-|]; [by rewrite E | apply andb_false_r].
  - intros E H. apply (f_equal (λ z, Z.testbit z 7)) in H.
    rewrite Z.land_spec, E in H. by vm_compute in H.
Qed.

Lemma testbit_shl_byte (x k : Z) :
  0 < k < 8 → Z.testbit (to_byte (Z.shiftl x 1)) k = Z.testbit x (k - 1).
Proof.
  intros Hk. rewrite testbit_to_byte by lia. by rewrite Z.shiftl_spec by lia.
Qed.

(** The inner loop sends the top [inner] bits, most significant first. *)
Lemma HunterWrite_inner_spec (inner : nat) :
  ∀ sendByte, (inner ≤ 8)%nat →
    HunterWrite_inner inner sendByte
    = flat_map Wire.pulse
        ((λ k : nat, Z.testbit sendByte (7 - Z.of_nat k)) <$> seq 0 inner).
Proof.
  induction inner as [|inner IH]; intros sendByte Hle; [done|].
  cbn [HunterWrite_inner seq fmap list_fmap flat_map].
  rewrite IH by lia. f_equal.
  - rewrite HunterHigh_pulse, HunterLow_pulse.
    case_decide as Htop.
    + apply top_bit in Htop. by rewrite Z.sub_0_r, Htop.
    + rewrite Z.sub_0_r. destruct (Z.testbit sendByte 7) eqn:E; [|done].
      by apply top_bit in E.
  - f_equal. rewrite <- seq_shift, <- list_fmap_compose.
    apply list_fmap_ext. intros i k Hk. simpl.
    apply lookup_seq in Hk as [-> Hlt].
    rewrite testbit_shl_byte by lia. f_equal. lia.
Qed.

Lemma HunterWrite_byte (sendByte : Z) :
  HunterWrite_inner 8 sendByte = flat_map Wire.pulse (byte_bits sendByte).
Proof. by rewrite HunterWrite_inner_spec. Qed.

Lemma HunterWrite_bytes (buffer : list Z) :
  flat_map (HunterWrite_inner 8) buffer
  = flat_map Wire.pulse (frame_bits buffer).
Proof.
  unfold frame_bits. induction buffer as [|b buffer IH]; [done|].
  cbn [flat_map]. by rewrite flat_map_app, IH, HunterWrite_byte.
Qed.

End Waveform.

(** C3: [HunterWrite] produces exactly the documented waveform: reset, start,
    one pulse per frame bit (bytes in order, most significant bit first), the
    extra 1 pulse if requested, and the final 0 pulse. *)
Theorem HunterWrite_waveform (buffer : list Z) (extrabit : bool) :
  HunterWrite buffer extrabit = Wire.waveform buffer extrabit.
Proof.
  unfold HunterWrite, Wire.waveform.
  rewrite HunterWrite_bytes, HunterHigh_pulse, HunterLow_pulse.
  reflexivity.
Qed.

(** ** The zone frame *)

Section ZoneFrame.

Implicit Types frame buffer : list Z.

(** Reading a field back gives the low [width] bits that were written. *)
Lemma readField_loop_spec (width : nat) :
  ∀ frame pos val,
    (∀ k, 0 ≤ k < Z.of_nat width →
          getbit frame (pos + k) = Some (Z.testbit val k)) →
    readField_loop width frame pos = Some (val mod 2 ^ Z.of_nat width).
Proof.
  induction width as [|width IH]; intros frame pos val Hbits.
  - by rewrite Z.mod_1_r.
  - cbn [readField_loop].
    rewrite <- (Z.add_0_r pos) at 1. rewrite Hbits by lia.
    rewrite (IH frame (pos + 1) (Z.shiftr val 1)).
    + cbn [mbind option_bind]. f_equal.
      rewrite Z.bit0_mod, Z.shiftr_div_pow2 by lia.
      rewrite Nat2Z.inj_succ, Z.pow_succ_r by lia.
      rewrite Z.rem_mul_r by lia. reflexivity.
    + intros k Hk. rewrite Z.shiftr_spec by lia.
      rewrite <- Z.add_assoc, Hbits by lia. do 2 f_equal. lia.
Qed.

Lemma readField_spec frame (pos width val : Z) :
  0 ≤ width →
  (∀ k, 0 ≤ k < width → getbit frame (pos + k) = Some (Z.testbit val k)) →
  readField frame pos width = Some (val mod 2 ^ width).
Proof.
  intros Hw Hbits. unfold readField.
  rewrite (readField_loop_spec _ frame pos val).
  - by rewrite Z2Nat.id.
  - intros k Hk. apply Hbits. lia.
Qed.

Lemma HunterStart_group (zone : Z) buffer :
  (if decide (zone > 12)
   then HunterBitfield buffer 9 0x1 2
   else HunterBitfield buffer 9 0x2 2)
  = HunterBitfield buffer 9 (if decide (zone > 12) then 1 else 2) 2.
Proof. by case_decide. Qed.

Lemma testbit_low_nibble (time k : Z) :
  k < 4 → Z.testbit (time mod 16) k = Z.testbit time k.
Proof. intros Hk. change 16 with (2 ^ 4). by apply Z.mod_pow2_bits_low. Qed.

Lemma shiftr_high_nibble (time : Z) : Z.shiftr time 4 = time / 16.
Proof. by rewrite Z.shiftr_div_pow2. Qed.

(** Runs the next [HunterBitfield] call of the goal through
    [HunterBitfield_spec]; [H] names the resulting description of the
    bits. *)
Ltac bitfield_step H :=
  match goal with
  | |- context [HunterBitfield ?b ?pos ?val ?len] =>
      let b' := fresh "buffer" in
      let Hrun := fresh "Hrun" in
      let Hlen := fresh "Hlen" in
      destruct (HunterBitfield_spec b pos val len)
        as (b' & Hrun & Hlen & H); [lia..|];
      rewrite Hrun; cbn [mbind option_bind]; clear Hrun
  end.

(** The frame that [HunterStart] hands to [HunterWrite]: every field of the
    layout holds its value, least significant bit first, and every bit
    outside the fields is the bit of the base frame.  This holds for all
    arguments; the range checks are not needed for it. *)
Lemma HunterStart_fields_spec (zone time : Z) buffer :
  length buffer = 15%nat →
  ∃ frame,
    HunterStart_fields zone time buffer = Some frame
    ∧ length frame = 15%nat
    ∧ Forall (λ f, ∀ k, 0 ≤ k < f.1.2 →
                        getbit frame (f.1.1 + k) = Some (Z.testbit f.2 k))
             (zone_layout zone time)
    ∧ ∀ i, 0 ≤ i → Forall (λ f, ¬ in_field i f) (zone_layout zone time) →
           getbit frame i = getbit buffer i.
Proof.
  intros Hlen0. unfold HunterStart_fields. rewrite HunterStart_group.
  bitfield_step H1. bitfield_step H2. bitfield_step H3. bitfield_step H4.
  bitfield_step H5. bitfield_step H6. bitfield_step H7. bitfield_step H8.
  bitfield_step H9. bitfield_step H10. bitfield_step H11. bitfield_step H12.
  bitfield_step H13. bitfield_step H14.
  eexists. split; [done|]. split; [lia|].
  assert (∀ i, 0 ≤ i →
    getbit buffer13 i =
      if decide (109 ≤ i < 109 + 4)
      then Some (Z.testbit (to_byte (zone - 1)) (i - 109))
      else if decide (96 ≤ i < 96 + 4)
      then Some (Z.testbit (to_byte (Z.shiftr time 4)) (i - 96))
      else if decide (83 ≤ i < 83 + 4) then Some (Z.testbit time (i - 83))
      else if decide (70 ≤ i < 70 + 4)
      then Some (Z.testbit (to_byte (Z.shiftr time 4)) (i - 70))
      else if decide (57 ≤ i < 57 + 4) then Some (Z.testbit time (i - 57))
      else if decide (44 ≤ i < 44 + 4)
      then Some (Z.testbit (to_byte (Z.shiftr time 4)) (i - 44))
      else if decide (31 ≤ i < 31 + 4) then Some (Z.testbit time (i - 31))
      else if decide (88 ≤ i < 88 + 7)
      then Some (Z.testbit (to_byte (zone + 0x2f)) (i - 88))
      else if decide (75 ≤ i < 75 + 7)
      then Some (Z.testbit (to_byte (zone + 0x2f)) (i - 75))
      else if decide (62 ≤ i < 62 + 7)
      then Some (Z.testbit (to_byte (zone + 0x23)) (i - 62))
      else if decide (49 ≤ i < 49 + 7)
      then Some (Z.testbit (to_byte (zone + 0x23)) (i - 49))
      else if decide (36 ≤ i < 36 + 7)
      then Some (Z.testbit (to_byte (zone + 0x17)) (i - 36))
      else if decide (23 ≤ i < 23 + 7)
      then Some (Z.testbit (to_byte (zone + 0x17)) (i - 23))
      else if decide (9 ≤ i < 9 + 2)
      then Some (Z.testbit (if decide (zone > 12) then 1 else 2) (i - 9))
      else getbit buffer i) as Hbits.
  { intros i Hi.
    by rewrite H14, H13, H12, H11, H10, H9, H8, H7, H6, H5, H4, H3, H2, H1. }
  clear H1 H2 H3 H4 H5 H6 H7 H8 H9 H10 H11 H12 H13 H14.
  split.
  - unfold zone_layout. repeat apply Forall_cons_2; [..|apply Forall_nil_2];
      cbn [fst snd]; intros k Hk; rewrite Hbits by lia;
      repeat (rewrite decide_False by lia); rewrite decide_True by lia;
      f_equal; rewrite ?shiftr_high_nibble, ?testbit_to_byte by lia;
      rewrite ?testbit_low_nibble by lia; f_equal; lia.
  - intros i Hi Hout. unfold zone_layout in Hout.
    repeat (apply Forall_cons_1 in Hout as [? Hout]).
    unfold in_field in *; cbn [fst snd] in *.
    rewrite Hbits by done. by repeat (rewrite decide_False by lia).
Qed.

End ZoneFrame.

(** ** HunterStart on valid arguments *)

Section HunterStart.

Lemma HunterStart_accepts (zone time : Z) :
  1 ≤ zone ≤ 48 → 0 ≤ time ≤ 240 →
  HunterStart zone time
  = (frame ← HunterStart_fields zone time zone_base_frame;
     Some (HunterStart_banner zone time ++ HunterWrite frame true)).
Proof.
  intros Hz Ht. unfold HunterStart.
  rewrite decide_False by lia. by rewrite decide_False by lia.
Qed.

(** In the valid range every value of the layout fits its width. *)
Lemma zone_layout_fits (zone time : Z) :
  1 ≤ zone ≤ 48 → 0 ≤ time ≤ 240 →
  Forall (λ f, 0 ≤ f.1.2 ∧ f.2 mod 2 ^ f.1.2 = f.2) (zone_layout zone time).
Proof.
  intros Hz Ht. unfold zone_layout.
  repeat apply Forall_cons_2; [..|apply Forall_nil_2]; cbn [fst snd];
    (split; [lia|]); apply Z.mod_small;
    try case_decide; change (2 ^ 7) with 128; change (2 ^ 4) with 16;
    change (2 ^ 2) with 4; lia.
Qed.

Lemma zone_layout_readField (zone time : Z) (frame : list Z) :
  1 ≤ zone ≤ 48 → 0 ≤ time ≤ 240 →
  Forall (λ f, ∀ k, 0 ≤ k < f.1.2 →
                    getbit frame (f.1.1 + k) = Some (Z.testbit f.2 k))
         (zone_layout zone time) →
  Forall (λ f, readField frame f.1.1 f.1.2 = Some f.2) (zone_layout zone time).
Proof.
  intros Hz Ht Hbits.
  pose proof (zone_layout_fits zone time Hz Ht) as Hfits.
  eapply Forall_impl; [exact (List.Forall_and Hbits Hfits)|].
  intros f [Hf [Hw Hv]]. cbn beta in *.
  rewrite <- Hv. by apply readField_spec.
Qed.

End HunterStart.

(** C2: for a valid zone and duration [HunterStart] transmits a 15-byte
    frame in which every field of the documented layout reads back as its
    value (group selector at 9, [zone + 0x17] at 23 and 36, [zone + 0x23] at
    49 and 62, [zone + 0x2F] at 75 and 88, the duration nibbles three times
    each, the low nibble of [zone - 1] at 109) and every bit outside these
    fields is the bit of the base frame.  For zone 13 and 30 minutes the
    frame and its field values are the documented ones. *)
Theorem HunterStart_frame_layout (zone time : Z) :
  1 ≤ zone ≤ 48 → 0 ≤ time ≤ 240 →
  (∃ frame,
      HunterStart zone time
      = Some (HunterStart_banner zone time ++ HunterWrite frame true)
      ∧ length frame = 15%nat
      ∧ Forall (λ f, readField frame f.1.1 f.1.2 = Some f.2)
               (zone_layout zone time)
      ∧ ∀ i, 0 ≤ i < 120 →
             Forall (λ f, ¬ in_field i f) (zone_layout zone time) →
             getbit frame i = getbit zone_base_frame i)
  ∧ (∃ frame13,
        HunterStart 13 30
        = Some (HunterStart_banner 13 30 ++ HunterWrite frame13 true)
        ∧ readField frame13 9 2 = Some 1
        ∧ readField frame13 23 7 = Some 0x24
        ∧ readField frame13 36 7 = Some 0x24
        ∧ readField frame13 49 7 = Some 0x30
        ∧ readField frame13 62 7 = Some 0x30
        ∧ readField frame13 75 7 = Some 0x3C
        ∧ readField frame13 88 7 = Some 0x3C
        ∧ readField frame13 31 4 = Some 0xE
        ∧ readField frame13 57 4 = Some 0xE
        ∧ readField frame13 83 4 = Some 0xE
        ∧ readField frame13 44 4 = Some 0x1
        ∧ readField frame13 70 4 = Some 0x1
        ∧ readField frame13 96 4 = Some 0x1
        ∧ readField frame13 109 4 = Some 0xC).
Proof.
  intros Hz Ht. split.
  - destruct (HunterStart_fields_spec zone time zone_base_frame eq_refl)
      as (frame & Hrun & Hlen & Hfields & Hrest).
    exists frame. rewrite HunterStart_accepts, Hrun by done.
    split; [done|]. split; [done|]. split.
    + by apply zone_layout_readField.
    + intros i Hi Hout. apply Hrest; [lia | done].
  - exists [255; 64; 0; 72; 242; 72; 6; 60; 50; 7; 143; 60; 129; 185; 191].
    repeat split; vm_compute; reflexivity.
Qed.

Lemma HunterStart_frame_layout_witness :
  ∃ frame,
    HunterStart 5 0
    = Some (HunterStart_banner 5 0 ++ HunterWrite frame true)
    ∧ length frame = 15%nat
    ∧ Forall (λ f, readField frame f.1.1 f.1.2 = Some f.2) (zone_layout 5 0)
    ∧ ∀ i, 0 ≤ i < 120 →
           Forall (λ f, ¬ in_field i f) (zone_layout 5 0) →
           getbit frame i = getbit zone_base_frame i.
Proof.
  apply (HunterStart_frame_layout 5 0); lia.
Defined.

(** C1: for every zone in [1,48] and duration in [0,240], decoding the
    documented offsets of the transmitted frame (group at 9, [zone + 0x17]
    at 23, [zone + 0x23] at 49, [zone + 0x2F] at 75, duration nibbles at 31
    and 44, low nibble of [zone - 1] at 109) gives back exactly
    [(zone, time)]. *)
Theorem decode_HunterStart (zone time : Z) :
  1 ≤ zone ≤ 48 → 0 ≤ time ≤ 240 →
  ∃ frame,
    HunterStart zone time
    = Some (HunterStart_banner zone time ++ HunterWrite frame true)
    ∧ decode_zone_frame frame = Some (zone, time).
Proof.
  intros Hz Ht.
  destruct (HunterStart_fields_spec zone time zone_base_frame eq_refl)
    as (frame & Hrun & Hlen & Hfields & _).
  exists frame. rewrite HunterStart_accepts, Hrun by done.
  split; [done|].
  apply (zone_layout_readField zone time frame Hz Ht) in Hfields.
  unfold zone_layout in Hfields.
  repeat (apply Forall_cons_1 in Hfields as [? Hfields]).
  cbn [fst snd] in *. unfold decode_zone_frame.
  repeat match goal with H : readField _ _ _ = Some _ |- _ =>
    rewrite H; clear H end.
  cbn [mbind option_bind].
  rewrite decide_True.
  - do 2 f_equal; lia.
  - repeat split; try lia.
    replace (zone + 23 - 23) with zone by lia. reflexivity.
Qed.

Lemma decode_HunterStart_witness :
  ∃ frame,
    HunterStart 48 240
    = Some (HunterStart_banner 48 240 ++ HunterWrite frame true)
    ∧ decode_zone_frame frame = Some (48, 240).
Proof.
  apply (decode_HunterStart 48 240); lia.
Defined.

(** ** Rejection, totality and pulse counts *)

Section Encoders.

(** [HunterStart] never runs into undefined behaviour: all offsets lie inside
    the 15-byte frame. *)
Lemma HunterStart_total (zone time : Z) : is_Some (HunterStart zone time).
Proof.
  unfold HunterStart. repeat case_decide; [by eexists..|].
  destruct (HunterStart_fields_spec zone time zone_base_frame eq_refl)
    as (frame & -> & _). by eexists.
Qed.

Lemma HunterProgram_accepts (num : Z) :
  1 ≤ num ≤ 4 →
  ∃ frame, HunterProgram num = Some (HunterWrite frame false)
           ∧ length frame = 7%nat.
Proof.
  intros Hnum. unfold HunterProgram. rewrite decide_False by lia.
  destruct (HunterBitfield_spec program_base_frame 31 (to_byte (num - 1)) 2)
    as (frame & -> & Hlen & _); [simpl; lia..|].
  by exists frame.
Qed.

Lemma HunterProgram_total (num : Z) : is_Some (HunterProgram num).
Proof.
  destruct (decide (1 ≤ num ≤ 4)) as [Hnum|Hnum].
  - destruct (HunterProgram_accepts num Hnum) as (frame & -> & _).
    by eexists.
  - unfold HunterProgram. rewrite decide_True by lia. by eexists.
Qed.

Lemma decode_pulses_flat_map (bits : list bool) :
  Wire.decode_pulses (flat_map Wire.pulse bits) = Some bits.
Proof.
  induction bits as [|[] bits IH]; [done|..];
    cbn [flat_map Wire.pulse Wire.drive_us app Wire.decode_pulses].
  - rewrite decide_True by done. by rewrite IH.
  - rewrite decide_False by (intros (_ & _ & [=] & _)).
    rewrite decide_True by done. by rewrite IH.
Qed.

Lemma length_frame_bits (frame : list Z) :
  length (frame_bits frame) = (8 * length frame)%nat.
Proof.
  unfold frame_bits. induction frame as [|b frame IH]; [done|].
  cbn [flat_map]. rewrite length_app, IH. simpl. lia.
Qed.

Lemma HunterWrite_pulses (frame : list Z) (extrabit : bool) :
  HunterWrite frame extrabit
  = Wire.reset ++ Wire.start
    ++ flat_map Wire.pulse
         (frame_bits frame ++ (if extrabit then [true] else []) ++ [false]).
Proof.
  unfold HunterWrite.
  rewrite HunterWrite_bytes, HunterHigh_pulse, HunterLow_pulse.
  rewrite !flat_map_app. by destruct extrabit.
Qed.

Lemma bus_events_app (t1 t2 : list event) :
  bus_events (t1 ++ t2) = bus_events t1 ++ bus_events t2.
Proof. apply filter_app. Qed.

Lemma bus_events_pulses (bits : list bool) :
  bus_events (flat_map Wire.pulse bits) = flat_map Wire.pulse bits.
Proof.
  induction bits as [|b bits IH]; [done|].
  cbn [flat_map]. rewrite bus_events_app, IH. by destruct b.
Qed.

Lemma bus_events_HunterWrite (frame : list Z) (extrabit : bool) :
  bus_events (HunterWrite frame extrabit) = HunterWrite frame extrabit.
Proof.
  rewrite HunterWrite_pulses, !bus_events_app.
  by rewrite bus_events_pulses.
Qed.

Lemma HunterStart_rejects (zone time : Z) :
  ¬ (1 ≤ zone ≤ 48 ∧ 0 ≤ time ≤ 240) →
  HunterStart zone time
  = Some (HunterStart_banner zone time
          ++ [Serial_println (if decide (zone < 1 ∨ zone > 48)
                              then "invalid zone" else "invalid time")]).
Proof.
  intros Hbad. unfold HunterStart. case_decide; [done|].
  by rewrite decide_True by lia.
Qed.

Lemma HunterProgram_rejects (num : Z) :
  ¬ (1 ≤ num ≤ 4) →
  HunterProgram num = Some [Serial_println "invalid program"].
Proof. intros Hnum. unfold HunterProgram. by rewrite decide_True by lia. Qed.

(** A call whose trace has no bus event has not run [HunterWrite]. *)
Lemma quiet_not_transmits (r : option (list event)) (frame : list Z)
    (extrabit : bool) :
  bus_events <$> r = Some [] → ¬ transmits r frame extrabit.
Proof.
  intros Hr (pre & -> & Hpre). cbn [fmap option_fmap option_map] in Hr.
  rewrite bus_events_app, Hpre, bus_events_HunterWrite in Hr.
  by injection Hr.
Qed.

End Encoders.

(** The frame of program 3: [num - 1 = 2] at offset 31, low bit first. *)
Example HunterProgram_3 :
  HunterProgram 3
  = Some (HunterWrite [0xff; 0x40; 0x03; 0x96; 0x89; 0xbd; 0x7f] false).
Proof. reflexivity. Qed.

(** Zone 5 with duration 0: group 2, all duration nibbles 0. *)
Example HunterStart_5_0 :
  HunterStart 5 0
  = Some (HunterStart_banner 5 0
          ++ HunterWrite [ 0xff; 0x20; 0x00; 0x70; 0x13; 0x80; 0x0a; 0x04;
                           0x50; 0x05; 0x81; 0x2c; 0x01; 0xb9; 0x3f ] true).
Proof. reflexivity. Qed.

(** C4: a zone outside [1,48] or a duration above 240 makes [HunterStart]
    print its banner and the "invalid zone" / "invalid time" report and
    return; a program outside [1,4] makes [HunterProgram] print "invalid
    program" and return.  In both cases no event reaches the bus and
    [HunterWrite] is not run.  Every program in [1,4] is accepted and
    transmitted. *)
Theorem invalid_parameter_rejected (zone time num : Z) :
  ¬ (1 ≤ zone ≤ 48 ∧ 0 ≤ time ≤ 240) → ¬ (1 ≤ num ≤ 4) →
  HunterStart zone time
  = Some (HunterStart_banner zone time
          ++ [Serial_println (if decide (zone < 1 ∨ zone > 48)
                              then "invalid zone" else "invalid time")])
  ∧ HunterProgram num = Some [Serial_println "invalid program"]
  ∧ bus_events <$> HunterStart zone time = Some []
  ∧ bus_events <$> HunterProgram num = Some []
  ∧ (∀ frame extrabit, ¬ transmits (HunterStart zone time) frame extrabit)
  ∧ (∀ frame extrabit, ¬ transmits (HunterProgram num) frame extrabit)
  ∧ (∀ p, 1 ≤ p ≤ 4 →
          ∃ frame, HunterProgram p = Some (HunterWrite frame false)).
Proof.
  intros Hbad Hnum.
  pose proof (HunterStart_rejects zone time Hbad) as Hstart.
  pose proof (HunterProgram_rejects num Hnum) as Hprog.
  assert (bus_events <$> HunterStart zone time = Some []) as Hbus1
    by (by rewrite Hstart).
  assert (bus_events <$> HunterProgram num = Some []) as Hbus2
    by (by rewrite Hprog).
  repeat split; try done.
  - intros frame extrabit. by apply quiet_not_transmits.
  - intros frame extrabit. by apply quiet_not_transmits.
  - intros p Hp. destruct (HunterProgram_accepts p Hp) as (frame & ? & _).
    by exists frame.
Qed.

Lemma invalid_parameter_rejected_witness :
  HunterStart 0 241
  = Some (HunterStart_banner 0 241 ++ [Serial_println "invalid zone"])
  ∧ HunterProgram 5 = Some [Serial_println "invalid program"].
Proof.
  destruct (invalid_parameter_rejected 0 241 5) as (H1 & H2 & _);
    [lia | lia |].
  split; [exact H1 | exact H2].
Defined.

(** C5: for every zone, [HunterStop zone] is [HunterStart zone 0] after three
    extra [Serial] prints: the events on the bus are the same, and the one
    transmits a frame exactly when the other transmits that same frame. *)
Theorem HunterStop_is_HunterStart_0 (zone : Z) :
  HunterStop zone
  = (λ t, [ Serial_print "HunterStop zone ";
            Serial_print (String_of_int zone); Serial_print ": " ] ++ t)
    <$> HunterStart zone 0
  ∧ is_Some (HunterStop zone)
  ∧ bus_events <$> HunterStop zone = bus_events <$> HunterStart zone 0
  ∧ ∀ frame,
      transmits (HunterStop zone) frame true
      ↔ transmits (HunterStart zone 0) frame true.
Proof.
  unfold HunterStop.
  destruct (HunterStart_total zone 0) as [t Ht]. rewrite Ht.
  cbn [mbind option_bind fmap option_fmap option_map].
  split; [done|]. split; [by eexists|]. split; [done|].
  intros frame. split.
  - intros (pre & [= Heq] & Hpre).
    destruct pre as [|e1 [|e2 [|e3 pre]]]; try done.
    injection Heq as <- <- <- ->. exists pre. split; [done|]. exact Hpre.
  - intros (pre & [= ->] & Hpre).
    eexists (_ :: _ :: _ :: pre). split; [done|]. exact Hpre.
Qed.

(** C6: an accepted zone command puts, after reset and start, one pulse per
    bit of the 15-byte frame, then a 1 pulse and the 0 stop pulse, 122
    pulses in all; an accepted program command puts one pulse per bit of the
    7-byte frame and the 0 stop pulse, 57 pulses in all, with no extra
    pulse. *)
Theorem pulse_counts (zone time num : Z) :
  1 ≤ zone ≤ 48 → 0 ≤ time ≤ 240 → 1 ≤ num ≤ 4 →
  (∃ frame t,
      HunterStart zone time = Some t
      ∧ bus_events t
        = Wire.reset ++ Wire.start
          ++ flat_map Wire.pulse (frame_bits frame ++ [true; false])
      ∧ Wire.decode_pulses
          (flat_map Wire.pulse (frame_bits frame ++ [true; false]))
        = Some (frame_bits frame ++ [true; false])
      ∧ length (frame_bits frame ++ [true; false]) = 122%nat)
  ∧ (∃ frame t,
        HunterProgram num = Some t
        ∧ bus_events t
          = Wire.reset ++ Wire.start
            ++ flat_map Wire.pulse (frame_bits frame ++ [false])
        ∧ Wire.decode_pulses
            (flat_map Wire.pulse (frame_bits frame ++ [false]))
          = Some (frame_bits frame ++ [false])
        ∧ length (frame_bits frame ++ [false]) = 57%nat).
Proof.
  intros Hz Ht Hnum. split.
  - destruct (HunterStart_fields_spec zone time zone_base_frame eq_refl)
      as (frame & Hrun & Hlen & _).
    exists frame, (HunterStart_banner zone time ++ HunterWrite frame true).
    rewrite HunterStart_accepts, Hrun by done. split; [done|].
    split; [|split].
    + rewrite bus_events_app, bus_events_HunterWrite.
      by rewrite HunterWrite_pulses.
    + apply decode_pulses_flat_map.
    + rewrite length_app, length_frame_bits, Hlen. reflexivity.
  - destruct (HunterProgram_accepts num Hnum) as (frame & Hrun & Hlen).
    exists frame, (HunterWrite frame false). split; [done|].
    split; [|split].
    + by rewrite bus_events_HunterWrite, HunterWrite_pulses.
    + apply decode_pulses_flat_map.
    + rewrite length_app, length_frame_bits, Hlen. reflexivity.
Qed.

Lemma pulse_counts_witness :
  ∃ frame t,
    HunterStart 13 30 = Some t
    ∧ bus_events t
      = Wire.reset ++ Wire.start
        ++ flat_map Wire.pulse (frame_bits frame ++ [true; false])
    ∧ Wire.decode_pulses
        (flat_map Wire.pulse (frame_bits frame ++ [true; false]))
      = Some (frame_bits frame ++ [true; false])
    ∧ length (frame_bits frame ++ [true; false]) = 122%nat.
Proof.
  apply (pulse_counts 13 30 1); lia.
Defined.

(** ** The facade *)

Section Facade.

Lemma precedes_app (P Q : event → bool) (pre rest : list event) :
  Forall (λ e, Q e = false) pre → Forall (λ e, P e = false) rest →
  precedes P Q (pre ++ rest).
Proof.
  intros Hpre Hrest i j a b Ha Hb HP HQ.
  destruct (decide (i < length pre)%nat) as [Hi|Hi].
  - destruct (decide (j < length pre)%nat) as [Hj|Hj]; [|lia].
    rewrite lookup_app_l in Hb by done.
    pose proof (Forall_lookup_1 _ _ _ _ Hpre Hb) as HQ'.
    cbn beta in HQ'. congruence.
  - rewrite lookup_app_r in Ha by lia.
    pose proof (Forall_lookup_1 _ _ _ _ Hrest Ha) as HP'.
    cbn beta in HP'. congruence.
Qed.

Lemma filter_none (P : event → bool) (t : list event) :
  Forall (λ e, P e = false) t → filter P t = [].
Proof.
  induction 1 as [|e t He _ IH]; [done|].
  rewrite filter_cons, IH. by rewrite He.
Qed.

Lemma is_bus_only (e : event) :
  is_bus e = true → is_display e = false ∧ is_pump e = false.
Proof.
  destruct e; try done. cbn. intros Hpin%bool_decide_eq_true. subst pin.
  done.
Qed.

Lemma HunterWrite_only_bus (frame : list Z) (extrabit : bool) :
  Forall (λ e, is_bus e = true) (HunterWrite frame extrabit).
Proof.
  rewrite HunterWrite_pulses.
  repeat (apply Forall_app; split); [by repeat constructor..|].
  generalize (frame_bits frame ++ (if extrabit then [true] else []) ++ [false]).
  intros bits. induction bits as [|[] bits IH]; [done|..];
    cbn [flat_map]; (apply Forall_app; split; [by repeat constructor|done]).
Qed.

(** The encoders only print and drive the bus: they never touch the display
    or the pump pin. *)
Lemma HunterStart_events (zone time : Z) (t : list event) :
  HunterStart zone time = Some t →
  Forall (λ e, is_display e = false) t ∧ Forall (λ e, is_pump e = false) t.
Proof.
  unfold HunterStart. repeat case_decide.
  - intros [= <-]. split; by repeat constructor.
  - intros [= <-]. split; by repeat constructor.
  - destruct (HunterStart_fields _ _ _) as [frame|]; [|done].
    intros [= <-].
    split; do 5 (apply Forall_cons_2; [done|]);
      (eapply Forall_impl; [apply HunterWrite_only_bus|]);
      intros e He; by apply is_bus_only in He as [? ?].
Qed.

Lemma HunterProgram_events (num : Z) (t : list event) :
  HunterProgram num = Some t → Forall (λ e, is_display e = false) t.
Proof.
  unfold HunterProgram. case_decide.
  - intros [= <-]. by repeat constructor.
  - destruct (HunterBitfield _ _ _ _) as [frame|]; [|done].
    intros [= <-]. eapply Forall_impl; [apply HunterWrite_only_bus|].
    intros e He. by apply is_bus_only in He as [? ?].
Qed.

Lemma switchPump_quiet (USE_PUMP onOff : bool) :
  Forall (λ e, is_bus e = false) (switchPump USE_PUMP onOff)
  ∧ Forall (λ e, is_display e = false) (switchPump USE_PUMP onOff).
Proof. destruct USE_PUMP, onOff; split; by repeat constructor. Qed.

Lemma startZone_head_quiet (USE_PUMP oled : bool) (zone time : Z) :
  Forall (λ e, is_bus e = false) (startZone_head USE_PUMP oled zone time).
Proof.
  unfold startZone_head.
  apply Forall_app; split; [by repeat constructor|].
  apply Forall_app; split; [destruct oled; by repeat constructor|].
  case_decide; apply switchPump_quiet.
Qed.

Lemma startProgram_head_quiet (oled : bool) (programID : Z) :
  Forall (λ e, is_bus e = false) (startProgram_head oled programID).
Proof.
  unfold startProgram_head.
  apply Forall_app; split; [|destruct oled]; by repeat constructor.
Qed.

Lemma bus_events_startZone (USE_PUMP oled : bool) (zone time : Z) :
  bus_events <$> startZone USE_PUMP oled zone time
  = bus_events <$> HunterStart (to_byte zone) (to_byte time).
Proof.
  unfold startZone. destruct (HunterStart _ _) as [rest|]; [|done].
  cbn [mbind option_bind fmap option_fmap option_map].
  rewrite bus_events_app.
  by rewrite (filter_none is_bus _ (startZone_head_quiet _ _ _ _)
              : bus_events _ = []).
Qed.

Lemma bus_events_startProgram (oled : bool) (programID : Z) :
  bus_events <$> startProgram oled programID
  = bus_events <$> HunterProgram (to_byte programID).
Proof.
  unfold startProgram. destruct (HunterProgram _) as [rest|]; [|done].
  cbn [mbind option_bind fmap option_fmap option_map].
  rewrite bus_events_app.
  by rewrite (filter_none is_bus _ (startProgram_head_quiet _ _)
              : bus_events _ = []).
Qed.

Lemma HunterStart_transmits (zone time : Z) :
  1 ≤ zone ≤ 48 → 0 ≤ time ≤ 240 →
  ∃ frame, transmits (HunterStart zone time) frame true.
Proof.
  intros Hz Ht. rewrite HunterStart_accepts by done.
  destruct (HunterStart_fields_spec zone time zone_base_frame eq_refl)
    as (frame & -> & _).
  exists frame, (HunterStart_banner zone time). by split.
Qed.

Lemma transmits_startZone (USE_PUMP oled : bool) (zone time : Z) frame :
  transmits (HunterStart (to_byte zone) (to_byte time)) frame true →
  transmits (startZone USE_PUMP oled zone time) frame true.
Proof.
  intros (pre & Hrun & Hpre). unfold startZone. rewrite Hrun.
  exists (startZone_head USE_PUMP oled zone time ++ pre).
  split; [by rewrite <- app_assoc|].
  rewrite bus_events_app, Hpre.
  by rewrite (filter_none is_bus _ (startZone_head_quiet _ _ _ _)
              : bus_events _ = []).
Qed.

Lemma transmits_startProgram (oled : bool) (programID : Z) frame :
  transmits (HunterProgram (to_byte programID)) frame false →
  transmits (startProgram oled programID) frame false.
Proof.
  intros (pre & Hrun & Hpre). unfold startProgram. rewrite Hrun.
  exists (startProgram_head oled programID ++ pre).
  split; [by rewrite <- app_assoc|].
  rewrite bus_events_app, Hpre.
  by rewrite (filter_none is_bus _ (startProgram_head_quiet _ _)
              : bus_events _ = []).
Qed.

End Facade.

(** C8, as stated, fails: with a display attached, [startZone 1 1] reports
    the message and the zone/time/program triple (events 1 and 2 of the
    trace) before the first bus event of the transmission (event 8), so it
    is not the case that the transmission comes before the display
    report. *)
Lemma display_report_not_after_transmission :
  ∃ t, startZone false true 1 1 = Some t
       ∧ t !! 1%nat = Some (oled_updateAction "Watering zone 1 -> 1 min")
       ∧ t !! 2%nat = Some (oled_updateHunterInfo 1 1 0)
       ∧ t !! 8%nat = Some (digitalWrite HUNTER_PIN HIGH)
       ∧ ¬ precedes is_bus is_display t.
Proof.
  eexists. split; [vm_compute; reflexivity|].
  split; [reflexivity|]. split; [reflexivity|]. split; [reflexivity|].
  intros Hafter.
  specialize (Hafter 8%nat 1%nat _ _ eq_refl eq_refl eq_refl eq_refl). lia.
Qed.

(** C8, as the code has it: in every call of [startZone] and [startProgram]
    the display report (the message and the zone/time/program triple, made
    when a display is attached) comes before every bus event of the
    transmission; no display report follows the transmission. *)
Theorem display_report_precedes_transmission
    (USE_PUMP oled : bool) (zone time programID : Z) :
  (∃ t, startZone USE_PUMP oled zone time = Some t
        ∧ precedes is_display is_bus t
        ∧ filter is_display t
          = if oled
            then [ oled_updateAction (startZone_msg zone time);
                   oled_updateHunterInfo zone time 0 ]
            else [])
  ∧ (∃ t, startProgram oled programID = Some t
          ∧ precedes is_display is_bus t
          ∧ filter is_display t
            = if oled
              then [ oled_updateAction (startProgram_msg programID);
                     oled_updateHunterInfo 0 0 programID ]
              else []).
Proof.
  split.
  - unfold startZone.
    destruct (HunterStart_total (to_byte zone) (to_byte time)) as [rest Hrun].
    rewrite Hrun. eexists. split; [done|].
    apply HunterStart_events in Hrun as [Hdisplay _].
    split.
    + apply precedes_app; [apply startZone_head_quiet | done].
    + rewrite filter_app, (filter_none is_display rest) by done.
      rewrite app_nil_r. unfold startZone_head.
      rewrite !filter_app.
      rewrite (filter_none is_display
                 (if decide (time ≠ 0) then _ else _))
        by (case_decide; apply switchPump_quiet).
      by destruct oled.
  - unfold startProgram.
    destruct (HunterProgram_total (to_byte programID)) as [rest Hrun].
    rewrite Hrun. eexists. split; [done|].
    apply HunterProgram_events in Hrun.
    split.
    + apply precedes_app; [apply startProgram_head_quiet | done].
    + rewrite filter_app, (filter_none is_display rest) by done.
      rewrite app_nil_r. by destruct oled.
Qed.

(** C9: with pump control enabled, every call of [startZone] writes the pump
    pin exactly once, before any bus event: HIGH when the duration argument
    is nonzero, LOW when it is zero. *)
Theorem pump_switched_before_transmission (oled : bool) (zone time : Z) :
  ∃ t, startZone true oled zone time = Some t
       ∧ filter is_pump t
         = [ digitalWrite PUMP_PIN (if decide (time ≠ 0) then HIGH else LOW) ]
       ∧ precedes is_pump is_bus t.
Proof.
  unfold startZone.
  destruct (HunterStart_total (to_byte zone) (to_byte time)) as [rest Hrun].
  rewrite Hrun. eexists. split; [done|].
  apply HunterStart_events in Hrun as [_ Hpump].
  split.
  - rewrite filter_app, (filter_none is_pump rest) by done.
    rewrite app_nil_r. unfold startZone_head.
    destruct oled; by case_decide.
  - apply precedes_app; [apply startZone_head_quiet | done].
Qed.

(** C10: the facade narrows its [int] arguments to bytes before the range
    checks, so what reaches the bus is decided by the arguments modulo 256.
    A duration of 256 on a valid zone [z] is transmitted as
    [HunterStart z 0]; zone 260 with a valid duration [t] is transmitted as
    [HunterStart 4 t]; a narrowed duration is never below 0, and the
    duration -16 is transmitted as 240 minutes. *)
Theorem facade_arguments_narrowed
    (USE_PUMP oled : bool) (zone time programID z t : Z) :
  1 ≤ z ≤ 48 → 0 ≤ t ≤ 240 →
  bus_events <$> startZone USE_PUMP oled zone time
  = bus_events <$> HunterStart (zone mod 256) (time mod 256)
  ∧ bus_events <$> startProgram oled programID
    = bus_events <$> HunterProgram (programID mod 256)
  ∧ ((∃ frame, transmits (startZone USE_PUMP oled zone time) frame true)
     ↔ 1 ≤ zone mod 256 ≤ 48 ∧ time mod 256 ≤ 240)
  ∧ ((∃ frame, transmits (startProgram oled programID) frame false)
     ↔ 1 ≤ programID mod 256 ≤ 4)
  ∧ bus_events <$> startZone USE_PUMP oled z 256
    = bus_events <$> HunterStart z 0
  ∧ (∃ frame, transmits (startZone USE_PUMP oled z 256) frame true)
  ∧ bus_events <$> startZone USE_PUMP oled 260 t
    = bus_events <$> HunterStart 4 t
  ∧ (∃ frame, transmits (startZone USE_PUMP oled 260 t) frame true)
  ∧ ¬ (to_byte time < 0)
  ∧ bus_events <$> startZone USE_PUMP oled z (-16)
    = bus_events <$> HunterStart z 240
  ∧ (∃ frame, transmits (startZone USE_PUMP oled z (-16)) frame true).
Proof.
  intros Hz Ht.
  assert (to_byte z = z) as Hzb by (apply to_byte_small; unfold is_byte; lia).
  assert (to_byte t = t) as Htb by (apply to_byte_small; unfold is_byte; lia).
  assert (∀ a b, 1 ≤ to_byte a ≤ 48 → 0 ≤ to_byte b ≤ 240 →
                 ∃ frame, transmits (startZone USE_PUMP oled a b) frame true)
    as Hsend.
  { intros a b Ha Hb.
    destruct (HunterStart_transmits _ _ Ha Hb) as [frame Hframe].
    exists frame. by apply transmits_startZone. }
  split; [apply bus_events_startZone|].
  split; [apply bus_events_startProgram|].
  split; [|split].
  - split.
    + intros [frame Hframe].
      destruct (decide (1 ≤ zone mod 256 ≤ 48 ∧ 0 ≤ time mod 256 ≤ 240))
        as [?|Hbad]; [lia|].
      exfalso. eapply quiet_not_transmits; [|exact Hframe].
      rewrite bus_events_startZone. unfold to_byte.
      by rewrite HunterStart_rejects.
    + intros [Hzone Htime]. apply Hsend; unfold to_byte; lia.
  - split.
    + intros [frame Hframe].
      destruct (decide (1 ≤ programID mod 256 ≤ 4)) as [?|Hbad]; [done|].
      exfalso. eapply quiet_not_transmits; [|exact Hframe].
      rewrite bus_events_startProgram. unfold to_byte.
      by rewrite HunterProgram_rejects.
    + intros Hnum.
      destruct (HunterProgram_accepts (to_byte programID) Hnum)
        as (frame & Hrun & _).
      exists frame. apply transmits_startProgram. by exists [].
  - split; [by rewrite bus_events_startZone, Hzb|].
    split; [apply Hsend; rewrite ?Hzb; unfold to_byte; simpl; lia|].
    split; [by rewrite bus_events_startZone, Htb|].
    split; [apply Hsend; rewrite ?Htb; unfold to_byte; simpl; lia|].
    split; [pose proof (to_byte_is_byte time); unfold is_byte in *; lia|].
    split; [by rewrite bus_events_startZone, Hzb|].
    apply Hsend; rewrite ?Hzb; unfold to_byte; simpl; lia.
Qed.

Lemma facade_arguments_narrowed_witness :
  bus_events <$> startZone false true 5 256 = bus_events <$> HunterStart 5 0
  ∧ bus_events <$> startZone false true 260 30
    = bus_events <$> HunterStart 4 30.
Proof.
  destruct (facade_arguments_narrowed false true 5 256 1 5 30)
    as (_ & _ & _ & _ & H1 & _ & H2 & _); [lia | lia |].
  split; [exact H1 | exact H2].
Defined.

(** * Further properties of the code *)

(** ** More on HunterBitfield *)

Section BitfieldMore.

Implicit Types bits : list Z.

(** A write that runs past the end of the vector fails. *)
Lemma HunterBitfield_loop_overrun (len : nat) :
  ∀ bits pos val,
    0 ≤ pos → (0 < len)%nat → pos + Z.of_nat len ≤ 256 →
    8 * Z.of_nat (length bits) < pos + Z.of_nat len →
    HunterBitfield_loop len bits pos val = None.
Proof.
  induction len as [|len IH]; intros bits pos val Hpos Hlen Hwrap Hover;
    [lia|].
  cbn [HunterBitfield_loop].
  destruct (bits !! Z.to_nat (pos / 8)) as [cur|] eqn:Hcur; [|done].
  cbn [mbind option_bind].
  apply lookup_lt_Some, Nat2Z.inj_lt in Hcur.
  rewrite Z2Nat.id in Hcur by (apply Z.div_pos; lia).
  destruct len as [|len]; [exfalso; lia|].
  rewrite (to_byte_small (pos + 1)) by (unfold is_byte; lia).
  apply IH; rewrite ?length_insert; lia.
Qed.

Lemma HunterBitfield_loop_bytes (len : nat) :
  ∀ bits bits' pos val,
    Forall is_byte bits →
    HunterBitfield_loop len bits pos val = Some bits' →
    Forall is_byte bits' ∧ length bits' = length bits.
Proof.
  induction len as [|len IH]; intros bits bits' pos val Hbytes Hrun.
  - injection Hrun as <-. done.
  - cbn [HunterBitfield_loop] in Hrun.
    destruct (bits !! Z.to_nat (pos / 8)) as [cur|] eqn:Hcur; [|done].
    cbn [mbind option_bind] in Hrun.
    apply IH in Hrun as [Hb Hl].
    + split; [done|]. by rewrite Hl, length_insert.
    + apply Forall_insert; [done|]. apply to_byte_is_byte.
Qed.

(** Two byte vectors with the same bits are the same vector. *)
Lemma frame_ext bits1 bits2 :
  length bits1 = length bits2 →
  Forall is_byte bits1 → Forall is_byte bits2 →
  (∀ i, 0 ≤ i < 8 * Z.of_nat (length bits1) → getbit bits1 i = getbit bits2 i) →
  bits1 = bits2.
Proof.
  intros Hlen Hb1 Hb2 Hbits. apply list_eq. intros k.
  destruct (decide (k < length bits1)%nat) as [Hk|Hk].
  - destruct (lookup_lt_is_Some_2 bits1 k Hk) as [b1 H1].
    destruct (lookup_lt_is_Some_2 bits2 k ltac:(lia)) as [b2 H2].
    rewrite H1, H2. f_equal.
    pose proof (Forall_lookup_1 _ _ _ _ Hb1 H1) as R1.
    pose proof (Forall_lookup_1 _ _ _ _ Hb2 H2) as R2.
    unfold is_byte in R1, R2.
    apply Z.bits_inj'. intros j Hj.
    destruct (decide (j < 8)) as [Hj8|Hj8].
    + specialize (Hbits (8 * Z.of_nat k + (7 - j)) ltac:(lia)).
      unfold getbit in Hbits.
      replace (Z.to_nat ((8 * Z.of_nat k + (7 - j)) / 8)) with k in Hbits
        by lia.
      rewrite H1, H2 in Hbits. cbn in Hbits.
      replace (7 - (8 * Z.of_nat k + (7 - j)) mod 8) with j in Hbits by lia.
      by injection Hbits.
    + rewrite !Z.bits_above_log2; try done; try lia.
      * destruct (decide (b2 = 0)) as [->|]; [simpl; lia|].
        apply Z.log2_lt_pow2; [lia|].
        apply Z.lt_le_trans with (2 ^ 8); [lia|].
        apply Z.pow_le_mono_r; lia.
      * destruct (decide (b1 = 0)) as [->|]; [simpl; lia|].
        apply Z.log2_lt_pow2; [lia|].
        apply Z.lt_le_trans with (2 ^ 8); [lia|].
        apply Z.pow_le_mono_r; lia.
  - rewrite !lookup_ge_None_2; [done|lia..].
Qed.

End BitfieldMore.

Section BitStream.

Implicit Types bits : list Z.

Lemma byte_bits_lookup (b : Z) (n : nat) :
  (n < 8)%nat → byte_bits b !! n = Some (Z.testbit b (7 - Z.of_nat n)).
Proof.
  intros Hn. do 8 (destruct n as [|n]; [done|]). lia.
Qed.

(** Bit [n] of the transmitted stream is bit [n] of the frame. *)
Lemma frame_bits_lookup bits :
  ∀ n : nat, frame_bits bits !! n = getbit bits (Z.of_nat n).
Proof.
  unfold frame_bits.
  induction bits as [|b bits IH]; intros n; [done|].
  cbn [flat_map]. destruct (decide (n < 8)%nat) as [Hn|Hn].
  - rewrite lookup_app_l by done. rewrite byte_bits_lookup by done.
    unfold getbit. replace (Z.to_nat (Z.of_nat n / 8)) with 0%nat by lia.
    cbn. do 2 f_equal. lia.
  - rewrite lookup_app_r by (simpl; lia). rewrite IH.
    change (length (byte_bits b)) with 8%nat.
    unfold getbit.
    replace (Z.to_nat (Z.of_nat n / 8))
      with (S (Z.to_nat (Z.of_nat (n - 8) / 8))) by lia.
    cbn [lookup list_lookup].
    destruct (bits !! _); [|done]. cbn. do 2 f_equal. lia.
Qed.

Lemma field_bits_lookup (val len : Z) (k : nat) :
  Z.of_nat k < len →
  field_bits val len !! k = Some (Z.testbit val (Z.of_nat k)).
Proof.
  intros Hk. unfold field_bits. rewrite list_lookup_fmap.
  rewrite (lookup_seqZ_lt 0 len k Hk). done.
Qed.

Lemma length_field_bits (val len : Z) :
  length (field_bits val len) = Z.to_nat len.
Proof. unfold field_bits. by rewrite length_fmap, length_seqZ. Qed.

End BitStream.

(** X1: for a non-empty field whose end does not pass position 256,
    [HunterBitfield] is defined exactly when the field lies inside the
    vector; a field that reaches past the last byte is an out-of-range
    access. *)
Theorem HunterBitfield_defined_iff (bits : list Z) (pos val len : Z) :
  0 ≤ pos → 0 < len → pos + len ≤ 256 →
  is_Some (HunterBitfield bits pos val len)
  ↔ pos + len ≤ 8 * Z.of_nat (length bits).
Proof.
  intros Hpos Hlen Hwrap. split.
  - intros [bits' Hrun].
    destruct (decide (pos + len ≤ 8 * Z.of_nat (length bits))); [done|].
    unfold HunterBitfield in Hrun.
    rewrite HunterBitfield_loop_overrun in Hrun; [done|lia..].
  - intros Hfit.
    destruct (HunterBitfield_spec bits pos val len)
      as (bits' & -> & _); [lia..|]. by eexists.
Qed.

Lemma HunterBitfield_defined_iff_witness :
  is_Some (HunterBitfield program_base_frame 54 0x3 2)
  ↔ 54 + 2 ≤ 8 * Z.of_nat (length program_base_frame).
Proof.
  apply (HunterBitfield_defined_iff program_base_frame 54 0x3 2); lia.
Defined.

(** X2: [HunterBitfield] never changes the length of the vector and keeps
    every element a byte, whatever position, value and width it is given. *)
Theorem HunterBitfield_keeps_bytes (bits bits' : list Z) (pos val len : Z) :
  Forall is_byte bits →
  HunterBitfield bits pos val len = Some bits' →
  Forall is_byte bits' ∧ length bits' = length bits.
Proof. intros Hbytes Hrun. by eapply HunterBitfield_loop_bytes. Qed.

Lemma HunterBitfield_keeps_bytes_witness :
  Forall is_byte [0xff; 0x20; 0x00; 0x00; 0x10; 0x00; 0x00; 0x04; 0x00; 0x00;
                  0x01; 0x00; 0x01; 0xb8; 0x3f]
  ∧ length [0xff; 0x20; 0x00; 0x00; 0x10; 0x00; 0x00; 0x04; 0x00; 0x00;
            0x01; 0x00; 0x01; 0xb8; 0x3f] = length zone_base_frame.
Proof.
  apply (HunterBitfield_keeps_bytes zone_base_frame _ 9 0x2 2).
  - unfold zone_base_frame, is_byte. repeat constructor; lia.
  - reflexivity.
Defined.

(** X3: a second write to the same field replaces the first: writing [v1]
    and then [v2] at the same position and width leaves the vector exactly
    as writing [v2] alone. *)
Theorem HunterBitfield_overwrite (bits : list Z) (pos v1 v2 len : Z) :
  Forall is_byte bits →
  0 ≤ pos → 0 ≤ len → pos + len ≤ 256 →
  pos + len ≤ 8 * Z.of_nat (length bits) →
  (b ← HunterBitfield bits pos v1 len; HunterBitfield b pos v2 len)
  = HunterBitfield bits pos v2 len.
Proof.
  intros Hbytes Hpos Hlen Hwrap Hfit.
  destruct (HunterBitfield_spec bits pos v1 len)
    as (b1 & Hrun1 & Hl1 & Hb1); [done..|].
  destruct (HunterBitfield_spec b1 pos v2 len)
    as (b12 & Hrun12 & Hl12 & Hb12); [lia..|].
  destruct (HunterBitfield_spec bits pos v2 len)
    as (b2 & Hrun2 & Hl2 & Hb2); [done..|].
  rewrite Hrun1. cbn [mbind option_bind]. rewrite Hrun12, Hrun2. f_equal.
  pose proof (HunterBitfield_loop_bytes _ _ _ _ _ Hbytes Hrun1) as [Hy1 _].
  pose proof (HunterBitfield_loop_bytes _ _ _ _ _ Hy1 Hrun12) as [Hy12 _].
  pose proof (HunterBitfield_loop_bytes _ _ _ _ _ Hbytes Hrun2) as [Hy2 _].
  apply frame_ext; [lia|done..|].
  intros i Hi. rewrite Hb12, Hb2, Hb1 by lia.
  by repeat case_decide.
Qed.

Lemma HunterBitfield_overwrite_witness :
  (b ← HunterBitfield zone_base_frame 23 0x24 7; HunterBitfield b 23 0x18 7)
  = HunterBitfield zone_base_frame 23 0x18 7.
Proof.
  apply (HunterBitfield_overwrite zone_base_frame 23 0x24 0x18 7);
    [unfold zone_base_frame, is_byte; repeat constructor; lia
    | simpl; lia ..].
Defined.

(** X4: writes to fields that do not overlap commute: the vector after both
    writes does not depend on their order. *)
Theorem HunterBitfield_commute
    (bits : list Z) (pos1 val1 len1 pos2 val2 len2 : Z) :
  Forall is_byte bits →
  0 ≤ pos1 → 0 ≤ len1 → pos1 + len1 ≤ 256 →
  pos1 + len1 ≤ 8 * Z.of_nat (length bits) →
  0 ≤ pos2 → 0 ≤ len2 → pos2 + len2 ≤ 256 →
  pos2 + len2 ≤ 8 * Z.of_nat (length bits) →
  pos1 + len1 ≤ pos2 ∨ pos2 + len2 ≤ pos1 →
  (b ← HunterBitfield bits pos1 val1 len1; HunterBitfield b pos2 val2 len2)
  = (b ← HunterBitfield bits pos2 val2 len2; HunterBitfield b pos1 val1 len1).
Proof.
  intros Hbytes Hp1 Hl1 Hw1 Hf1 Hp2 Hl2 Hw2 Hf2 Hdisjoint.
  destruct (HunterBitfield_spec bits pos1 val1 len1)
    as (b1 & Hrun1 & Hlen1 & Hb1); [done..|].
  destruct (HunterBitfield_spec b1 pos2 val2 len2)
    as (b12 & Hrun12 & Hlen12 & Hb12); [lia..|].
  destruct (HunterBitfield_spec bits pos2 val2 len2)
    as (b2 & Hrun2 & Hlen2 & Hb2); [done..|].
  destruct (HunterBitfield_spec b2 pos1 val1 len1)
    as (b21 & Hrun21 & Hlen21 & Hb21); [lia..|].
  rewrite Hrun1, Hrun2. cbn [mbind option_bind]. rewrite Hrun12, Hrun21.
  f_equal.
  pose proof (HunterBitfield_loop_bytes _ _ _ _ _ Hbytes Hrun1) as [Hy1 _].
  pose proof (HunterBitfield_loop_bytes _ _ _ _ _ Hy1 Hrun12) as [Hy12 _].
  pose proof (HunterBitfield_loop_bytes _ _ _ _ _ Hbytes Hrun2) as [Hy2 _].
  pose proof (HunterBitfield_loop_bytes _ _ _ _ _ Hy2 Hrun21) as [Hy21 _].
  apply frame_ext; [lia|done..|].
  intros i Hi. rewrite Hb12, Hb21, Hb1, Hb2 by lia.
  repeat case_decide; (done || lia).
Qed.

Lemma HunterBitfield_commute_witness :
  (b ← HunterBitfield zone_base_frame 31 0xE 4; HunterBitfield b 23 0x24 7)
  = (b ← HunterBitfield zone_base_frame 23 0x24 7; HunterBitfield b 31 0xE 4).
Proof.
  apply (HunterBitfield_commute zone_base_frame 31 0xE 4 23 0x24 7);
    [unfold zone_base_frame, is_byte; repeat constructor; lia
    | simpl; lia ..].
Defined.

(** X5: in the order of transmission, a field write replaces the bits
    [pos .. pos + len - 1] of the stream by the bits of the value, least
    significant bit first, and leaves the bits before and after as they
    were. *)
Theorem HunterBitfield_bit_stream (bits bits' : list Z) (pos val len : Z) :
  0 ≤ pos → 0 ≤ len → pos + len ≤ 256 →
  pos + len ≤ 8 * Z.of_nat (length bits) →
  HunterBitfield bits pos val len = Some bits' →
  frame_bits bits'
  = take (Z.to_nat pos) (frame_bits bits)
    ++ field_bits val len
    ++ drop (Z.to_nat (pos + len)) (frame_bits bits).
Proof.
  intros Hpos Hlen Hwrap Hfit Hrun.
  destruct (HunterBitfield_spec bits pos val len)
    as (b & Hrun' & Hl & Hb); [done..|].
  rewrite Hrun in Hrun'. injection Hrun' as <-.
  pose proof (length_frame_bits bits) as Hfb.
  apply list_eq. intros n. rewrite frame_bits_lookup, Hb by lia.
  destruct (decide (n < Z.to_nat pos)%nat) as [Hn|Hn].
  - rewrite lookup_app_l by (rewrite length_take; lia).
    rewrite lookup_take_lt by done. rewrite frame_bits_lookup.
    by rewrite decide_False by lia.
  - rewrite lookup_app_r by (rewrite length_take; lia).
    rewrite length_take, Nat.min_l by lia.
    destruct (decide (n < Z.to_nat (pos + len))%nat) as [Hn'|Hn'].
    + rewrite lookup_app_l by (rewrite length_field_bits; lia).
      rewrite field_bits_lookup by lia.
      rewrite decide_True by lia. do 2 f_equal. lia.
    + rewrite lookup_app_r by (rewrite length_field_bits; lia).
      rewrite length_field_bits, lookup_drop, frame_bits_lookup.
      rewrite decide_False by lia. f_equal. lia.
Qed.

Lemma HunterBitfield_bit_stream_witness :
  frame_bits [0xff; 0x40; 0x03; 0x96; 0x89; 0xbd; 0x7f]
  = take (Z.to_nat 31) (frame_bits program_base_frame)
    ++ field_bits 0x2 2
    ++ drop (Z.to_nat (31 + 2)) (frame_bits program_base_frame).
Proof.
  apply (HunterBitfield_bit_stream program_base_frame _ 31 0x2 2);
    [simpl; lia .. | reflexivity].
Defined.

(** ** More on HunterWrite *)

Section WireMore.

Lemma duration_us_app (t1 t2 : list event) :
  duration_us (t1 ++ t2) = duration_us t1 + duration_us t2.
Proof.
  unfold duration_us. induction t1 as [|e t1 IH]; [done|].
  cbn [app foldr]. rewrite IH. destruct e; lia.
Qed.

(** A 1 pulse and a 0 pulse take the same time. *)
Lemma duration_us_pulses (bits : list bool) :
  duration_us (flat_map Wire.pulse bits) = 2083 * Z.of_nat (length bits).
Proof.
  induction bits as [|b bits IH]; [done|].
  cbn [flat_map length]. rewrite duration_us_app, IH.
  destruct b; cbn; lia.
Qed.

Lemma pin_writes_app (t1 t2 : list event) :
  pin_writes (t1 ++ t2) = pin_writes t1 ++ pin_writes t2.
Proof. apply flat_map_app. Qed.

Lemma pin_writes_pulses (bits : list bool) :
  pin_writes (flat_map Wire.pulse bits)
  = concat (replicate (length bits) [(HUNTER_PIN, HIGH); (HUNTER_PIN, LOW)]).
Proof.
  induction bits as [|b bits IH]; [done|].
  cbn [flat_map length replicate concat]. rewrite pin_writes_app, IH.
  by destruct b.
Qed.

Lemma flat_map_pulse_inj (bits1 bits2 : list bool) :
  flat_map Wire.pulse bits1 = flat_map Wire.pulse bits2 → bits1 = bits2.
Proof.
  intros Heq. apply (f_equal Wire.decode_pulses) in Heq.
  rewrite !decode_pulses_flat_map in Heq. by injection Heq.
Qed.

(** The wire bits of a transmission: frame bits, extra bit, stop bit. *)
Lemma HunterWrite_inj_bits (b1 b2 : list Z) (e1 e2 : bool) :
  HunterWrite b1 e1 = HunterWrite b2 e2 →
  frame_bits b1 = frame_bits b2 ∧ e1 = e2.
Proof.
  rewrite !HunterWrite_pulses. intros Heq.
  do 2 apply app_inv_head in Heq. apply flat_map_pulse_inj in Heq.
  pose proof (f_equal length Heq) as Hlen.
  rewrite !length_app, !length_frame_bits in Hlen.
  assert (e1 = e2) as <- by (destruct e1, e2; simpl in Hlen; (done || lia)).
  split; [|done]. by apply app_inv_tail in Heq.
Qed.

Lemma duration_us_HunterWrite (buffer : list Z) (extrabit : bool) :
  duration_us (HunterWrite buffer extrabit)
  = 391108
    + 2083 * (8 * Z.of_nat (length buffer) + (if extrabit then 1 else 0) + 1).
Proof.
  rewrite HunterWrite_pulses, !duration_us_app, duration_us_pulses.
  rewrite !length_app, length_frame_bits.
  destruct extrabit; cbn; lia.
Qed.

End WireMore.

(** X6: the delays of a transmission add up to 391108 µs for reset and start
    plus 2083 µs for every pulse, whatever the bits are: the time depends
    only on the number of bytes and on the extra bit. *)
Theorem HunterWrite_duration (buffer : list Z) (extrabit : bool) :
  duration_us (HunterWrite buffer extrabit)
  = 391108
    + 2083 * (8 * Z.of_nat (length buffer) + (if extrabit then 1 else 0) + 1).
Proof. apply duration_us_HunterWrite. Qed.

(** X7: every accepted zone command waits 645234 µs in all and every
    accepted program command 509839 µs, independent of zone, duration and
    program number. *)
Theorem command_duration (zone time num : Z) :
  1 ≤ zone ≤ 48 → 0 ≤ time ≤ 240 → 1 ≤ num ≤ 4 →
  (∃ t, HunterStart zone time = Some t ∧ duration_us t = 645234)
  ∧ (∃ t, HunterProgram num = Some t ∧ duration_us t = 509839).
Proof.
  intros Hz Ht Hnum. split.
  - destruct (HunterStart_fields_spec zone time zone_base_frame eq_refl)
      as (frame & Hrun & Hlen & _).
    rewrite HunterStart_accepts, Hrun by done. eexists. split; [done|].
    rewrite duration_us_app, duration_us_HunterWrite, Hlen. reflexivity.
  - destruct (HunterProgram_accepts num Hnum) as (frame & -> & Hlen).
    eexists. split; [done|]. rewrite duration_us_HunterWrite, Hlen.
    reflexivity.
Qed.

Lemma command_duration_witness :
  (∃ t, HunterStart 48 240 = Some t ∧ duration_us t = 645234)
  ∧ (∃ t, HunterProgram 4 = Some t ∧ duration_us t = 509839).
Proof.
  apply (command_duration 48 240 4); lia.
Defined.

(** X8: [HunterWrite] writes no pin but [HUNTER_PIN], and its writes
    alternate HIGH, LOW, HIGH, LOW, ...: one HIGH/LOW pair for reset, one for
    start and one per pulse, so the line is LOW when the call returns. *)
Theorem HunterWrite_pin_writes (buffer : list Z) (extrabit : bool) :
  pin_writes (HunterWrite buffer extrabit)
  = concat
      (replicate (2 + 8 * length buffer + (if extrabit then 1 else 0) + 1)
                 [(HUNTER_PIN, HIGH); (HUNTER_PIN, LOW)]).
Proof.
  rewrite HunterWrite_pulses, !pin_writes_app, pin_writes_pulses.
  rewrite !length_app, length_frame_bits.
  replace (2 + 8 * length buffer + (if extrabit then 1 else 0) + 1)%nat
    with (2 + (8 * length buffer
               + (length (if extrabit then [true] else []) + length [false])))%nat
    by (destruct extrabit; simpl; lia).
  reflexivity.
Qed.

(** X9: the waveform determines the frame: two transmissions of byte
    vectors are equal only if the vectors and the extra-bit flags are
    equal. *)
Theorem HunterWrite_injective (b1 b2 : list Z) (e1 e2 : bool) :
  Forall is_byte b1 → Forall is_byte b2 →
  HunterWrite b1 e1 = HunterWrite b2 e2 →
  b1 = b2 ∧ e1 = e2.
Proof.
  intros Hb1 Hb2 Heq. apply HunterWrite_inj_bits in Heq as [Hbits <-].
  split; [|done].
  pose proof (f_equal length Hbits) as Hlen.
  rewrite !length_frame_bits in Hlen.
  apply frame_ext; [lia|done..|].
  intros i Hi.
  rewrite <- (Z2Nat.id i), <- !frame_bits_lookup by lia. by rewrite Hbits.
Qed.

Lemma HunterWrite_injective_witness :
  program_base_frame = program_base_frame ∧ false = false.
Proof.
  apply (HunterWrite_injective program_base_frame program_base_frame
           false false);
    [unfold program_base_frame, is_byte; repeat constructor; lia ..
    | reflexivity].
Defined.

(** ** More on the encoders and the facade *)

Section EncodersMore.

Lemma readField_loop_ext (width : nat) (f1 f2 : list Z) :
  (∀ i, 0 ≤ i → getbit f1 i = getbit f2 i) →
  ∀ pos, 0 ≤ pos → readField_loop width f1 pos = readField_loop width f2 pos.
Proof.
  intros Hbits. induction width as [|width IH]; intros pos Hpos; [done|].
  cbn [readField_loop]. rewrite Hbits by done.
  destruct (getbit f2 pos); [|done]. cbn [mbind option_bind].
  by rewrite IH by lia.
Qed.

Lemma decode_zone_frame_ext (f1 f2 : list Z) :
  (∀ i, 0 ≤ i → getbit f1 i = getbit f2 i) →
  decode_zone_frame f1 = decode_zone_frame f2.
Proof.
  intros Hbits. unfold decode_zone_frame, readField.
  by rewrite !(readField_loop_ext _ f1 f2 Hbits) by lia.
Qed.

Lemma HunterStart_fields_decode (zone time : Z) (frame : list Z) :
  1 ≤ zone ≤ 48 → 0 ≤ time ≤ 240 →
  HunterStart_fields zone time zone_base_frame = Some frame →
  decode_zone_frame frame = Some (zone, time).
Proof.
  intros Hz Ht Hrun.
  destruct (HunterStart_fields_spec zone time zone_base_frame eq_refl)
    as (frame' & Hrun' & _ & Hfields & _).
  rewrite Hrun in Hrun'. injection Hrun' as <-.
  apply (zone_layout_readField zone time frame Hz Ht) in Hfields.
  unfold zone_layout in Hfields.
  repeat (apply Forall_cons_1 in Hfields as [? Hfields]).
  cbn [fst snd] in *. unfold decode_zone_frame.
  repeat match goal with H : readField _ _ _ = Some _ |- _ =>
    rewrite H; clear H end.
  cbn [mbind option_bind].
  rewrite decide_True.
  - do 2 f_equal; lia.
  - repeat split; try lia.
    replace (zone + 23 - 23) with zone by lia. reflexivity.
Qed.

Lemma HunterProgram_cases (num : Z) :
  1 ≤ num ≤ 4 → num = 1 ∨ num = 2 ∨ num = 3 ∨ num = 4.
Proof. lia. Qed.

End EncodersMore.

(** X10: two valid zone commands put the same events on the bus only if
    they have the same zone and the same duration: the unit can tell all
    48 x 241 commands apart. *)
Theorem HunterStart_bus_injective (zone1 time1 zone2 time2 : Z) :
  1 ≤ zone1 ≤ 48 → 0 ≤ time1 ≤ 240 →
  1 ≤ zone2 ≤ 48 → 0 ≤ time2 ≤ 240 →
  bus_events <$> HunterStart zone1 time1
  = bus_events <$> HunterStart zone2 time2 →
  zone1 = zone2 ∧ time1 = time2.
Proof.
  intros Hz1 Ht1 Hz2 Ht2.
  rewrite !HunterStart_accepts by done.
  destruct (HunterStart_fields zone1 time1 zone_base_frame)
    as [f1|] eqn:Hf1;
    [|by destruct (HunterStart_fields_spec zone1 time1 zone_base_frame
                     eq_refl) as (? & ? & _); congruence].
  destruct (HunterStart_fields zone2 time2 zone_base_frame)
    as [f2|] eqn:Hf2;
    [|by destruct (HunterStart_fields_spec zone2 time2 zone_base_frame
                     eq_refl) as (? & ? & _); congruence].
  cbn [mbind option_bind fmap option_fmap option_map].
  rewrite !bus_events_app, !bus_events_HunterWrite.
  intros Heq. apply (inj Some) in Heq.
  change (HunterWrite f1 true = HunterWrite f2 true) in Heq.
  apply HunterWrite_inj_bits in Heq as [Hbits _].
  apply HunterStart_fields_decode in Hf1; [|done..].
  apply HunterStart_fields_decode in Hf2; [|done..].
  rewrite (decode_zone_frame_ext f1 f2) in Hf1.
  - rewrite Hf1 in Hf2. by injection Hf2.
  - intros i Hi.
    rewrite <- (Z2Nat.id i), <- !frame_bits_lookup by lia. by rewrite Hbits.
Qed.

Lemma HunterStart_bus_injective_witness : 13 = 13 ∧ 30 = 30.
Proof.
  apply (HunterStart_bus_injective 13 30 13 30); (lia || reflexivity).
Defined.

(** X11: an accepted program command transmits the 7-byte base frame with
    the two bits at offsets 31 and 32 set to bit 0 and bit 1 of
    [num - 1]; the field at 31 reads back as [num - 1]. *)
Theorem HunterProgram_frame (num : Z) :
  1 ≤ num ≤ 4 →
  HunterProgram num
  = Some (HunterWrite [ 0xff; 0x40; 0x03; 0x96 + (num - 1) mod 2;
                        0x09 + 0x80 * ((num - 1) / 2); 0xbd; 0x7f ] false)
  ∧ readField [ 0xff; 0x40; 0x03; 0x96 + (num - 1) mod 2;
                0x09 + 0x80 * ((num - 1) / 2); 0xbd; 0x7f ] 31 2
    = Some (num - 1).
Proof.
  intros Hnum.
  destruct (HunterProgram_cases num Hnum) as [-> | [-> | [-> | ->]]];
    split; reflexivity.
Qed.

Lemma HunterProgram_frame_witness :
  HunterProgram 4
  = Some (HunterWrite [ 0xff; 0x40; 0x03; 0x96 + (4 - 1) mod 2;
                        0x09 + 0x80 * ((4 - 1) / 2); 0xbd; 0x7f ] false)
  ∧ readField [ 0xff; 0x40; 0x03; 0x96 + (4 - 1) mod 2;
                0x09 + 0x80 * ((4 - 1) / 2); 0xbd; 0x7f ] 31 2
    = Some (4 - 1).
Proof.
  apply (HunterProgram_frame 4); lia.
Defined.

(** X12: [startProgram] never writes the pump pin, whether pump control is
    enabled or not (it has no call of [switchPump]); and with pump control
    disabled [startZone] never writes it either. *)
Theorem pump_pin_untouched (oled : bool) (zone time programID : Z) :
  (∃ t, startProgram oled programID = Some t ∧ filter is_pump t = [])
  ∧ (∃ t, startZone false oled zone time = Some t ∧ filter is_pump t = []).
Proof.
  split.
  - unfold startProgram.
    destruct (HunterProgram (to_byte programID)) as [rest|] eqn:Hrun;
      [|by destruct (HunterProgram_total (to_byte programID)); congruence].
    eexists. split; [done|].
    rewrite filter_app. rewrite (filter_none is_pump rest).
    + by destruct oled.
    + revert Hrun. unfold HunterProgram. case_decide.
      * intros [= <-]. by repeat constructor.
      * destruct (HunterBitfield _ _ _ _) as [frame|]; [|done].
        intros [= <-]. eapply Forall_impl; [apply HunterWrite_only_bus|].
        intros e He. by apply is_bus_only in He as [? ?].
  - unfold startZone.
    destruct (HunterStart_total (to_byte zone) (to_byte time)) as [rest Hrun].
    rewrite Hrun. eexists. split; [done|].
    apply HunterStart_events in Hrun as [_ Hpump].
    rewrite filter_app, (filter_none is_pump rest) by done.
    unfold startZone_head. destruct oled; by case_decide.
Qed.

(** X13: an out-of-range zone or duration is detected only inside
    [HunterStart], after the facade has already acted: [startZone] still
    reports to the display and, with pump control enabled and a nonzero
    duration argument, still switches the pump on, although nothing is sent
    on the bus. *)
Theorem startZone_rejected_side_effects
    (USE_PUMP oled : bool) (zone time : Z) :
  ¬ (1 ≤ zone mod 256 ≤ 48 ∧ time mod 256 ≤ 240) →
  ∃ t, startZone USE_PUMP oled zone time = Some t
       ∧ t = startZone_head USE_PUMP oled zone time
             ++ HunterStart_banner (zone mod 256) (time mod 256)
             ++ [Serial_println
                   (if decide (zone mod 256 < 1 ∨ zone mod 256 > 48)
                    then "invalid zone" else "invalid time")]
       ∧ bus_events t = []
       ∧ filter is_display t
         = (if oled
            then [ oled_updateAction (startZone_msg zone time);
                   oled_updateHunterInfo zone time 0 ]
            else [])
       ∧ filter is_pump t
         = (if USE_PUMP
            then [digitalWrite PUMP_PIN
                    (if decide (time ≠ 0) then HIGH else LOW)]
            else []).
Proof.
  intros Hbad. unfold startZone, to_byte.
  rewrite HunterStart_rejects by lia.
  cbn [mbind option_bind]. eexists. split; [done|]. split; [done|].
  unfold startZone_head.
  split; [|split]; destruct USE_PUMP, oled; by case_decide.
Qed.

Lemma startZone_rejected_side_effects_witness :
  ∃ t, startZone true true 49 10 = Some t
       ∧ t = startZone_head true true 49 10
             ++ HunterStart_banner (49 mod 256) (10 mod 256)
             ++ [Serial_println
                   (if decide (49 mod 256 < 1 ∨ 49 mod 256 > 48)
                    then "invalid zone" else "invalid time")]
       ∧ bus_events t = []
       ∧ filter is_display t
         = [ oled_updateAction (startZone_msg 49 10);
             oled_updateHunterInfo 49 10 0 ]
       ∧ filter is_pump t
         = [digitalWrite PUMP_PIN (if decide (10 ≠ 0) then HIGH else LOW)].
Proof.
  apply (startZone_rejected_side_effects true true 49 10). simpl. lia.
Defined.

(** ** The display buffer *)

Module OledFacts.

Import Oled.

Local Abbreviation ascii := Ascii.ascii.

Implicit Types row src dest text : list ascii.

Lemma length_strncpy_chars src (n : nat) : length (strncpy_chars src n) = n.
Proof.
  revert src. induction n as [|n IH]; intros [|c src]; cbn; try done.
  - by rewrite length_replicate.
  - case_decide; cbn; [by rewrite length_replicate | by rewrite IH].
Qed.

Lemma c_content_no_NUL src : Forall (λ c, c ≠ NUL) (c_content src).
Proof.
  induction src as [|c src IH]; cbn; [done|].
  case_decide; [done | by constructor].
Qed.

Lemma length_c_content src : (length (c_content src) ≤ length src)%nat.
Proof.
  induction src as [|c src IH]; cbn; [done|]. case_decide; cbn; lia.
Qed.

(** [strncpy] writes the source text, cut after [n], and pads with NUL. *)
Lemma strncpy_chars_content src (n : nat) :
  strncpy_chars src n
  = take n (c_content src)
    ++ replicate (n - length (take n (c_content src))) NUL.
Proof.
  revert src. induction n as [|n IH]; intros [|c src]; cbn; try done.
  case_decide; cbn; [done|]. by rewrite IH.
Qed.

Lemma c_content_app_NUL text rest :
  Forall (λ c, c ≠ NUL) text → c_content (text ++ NUL :: rest) = text.
Proof.
  induction 1 as [|c text Hc _ IH]; cbn.
  - by rewrite decide_True.
  - by rewrite decide_False, IH.
Qed.

(** A row with a NUL somewhere reads as its text. *)
Lemma c_str_NUL row (k : nat) :
  row !! k = Some NUL →
  c_str row = Some (String.string_of_list_ascii (c_content row))
  ∧ (length (c_content row) ≤ k)%nat.
Proof.
  revert k. induction row as [|c row IH]; intros k Hk; [done|].
  cbn. case_decide as Hc; [split; [done | cbn; lia]|].
  destruct k as [|k]; [cbn in Hk; congruence|].
  destruct (IH k Hk) as [-> Hlen]. split; [done | cbn; lia].
Qed.

Lemma terminated_c_str row :
  terminated row →
  c_str row = Some (String.string_of_list_ascii (c_content row))
  ∧ (length (c_content row) ≤ 39)%nat.
Proof. intros [_ Hnul]. by eapply c_str_NUL. Qed.

Lemma terminated_drop row : terminated row → drop 39 row = [NUL].
Proof.
  intros [Hlen Hnul].
  rewrite (drop_S _ _ _ Hnul). by rewrite drop_ge by lia.
Qed.

(** [strncpy(row, text, 39)] on a terminated row. *)
Lemma strncpy_39 row text :
  terminated row →
  terminated (strncpy row text (MAX_CHAR_IN_LINE - 1))
  ∧ c_content (strncpy row text (MAX_CHAR_IN_LINE - 1))
    = take 39 (c_content text).
Proof.
  intros Hrow. unfold strncpy.
  change (Z.to_nat (MAX_CHAR_IN_LINE - 1)) with 39%nat.
  rewrite (terminated_drop row Hrow).
  pose proof (length_strncpy_chars text 39) as Hlen.
  split; [split|].
  - rewrite length_app, Hlen. done.
  - rewrite lookup_app_r by lia. by rewrite Hlen.
  - rewrite strncpy_chars_content, <- app_assoc.
    assert (Forall (λ c, c ≠ NUL) (take 39 (c_content text))) as Hno
      by apply Forall_take, c_content_no_NUL.
    destruct (39 - length (take 39 (c_content text)))%nat;
      cbn [replicate app]; by rewrite c_content_app_NUL.
Qed.

(** [strncpy(row, src, 40)] from a terminated row into a row of 40. *)
Lemma strncpy_40 row src :
  length row = 40%nat → terminated src →
  terminated (strncpy row src MAX_CHAR_IN_LINE)
  ∧ c_content (strncpy row src MAX_CHAR_IN_LINE) = c_content src.
Proof.
  intros Hrow Hsrc. unfold strncpy.
  change (Z.to_nat MAX_CHAR_IN_LINE) with 40%nat.
  rewrite drop_ge, app_nil_r by lia.
  destruct (terminated_c_str src Hsrc) as [_ Hshort].
  rewrite strncpy_chars_content, take_ge by lia.
  pose proof (c_content_no_NUL src) as Hno.
  destruct (40 - length (c_content src))%nat as [|pad] eqn:Hpad; [lia|].
  cbn [replicate]. split; [split|].
  - rewrite length_app. cbn. rewrite length_replicate. lia.
  - rewrite lookup_app_r by lia.
    destruct (39 - length (c_content src))%nat as [|j] eqn:Hj; [done|].
    cbn. apply lookup_replicate_2. lia.
  - by rewrite c_content_app_NUL.
Qed.

Lemma ok_row (st : OLED) (k : nat) :
  ok st → (k < 10)%nat → ∃ row, lines st !! k = Some row ∧ terminated row.
Proof.
  intros (Hlen & Hrows & _) Hk.
  destruct (lookup_lt_is_Some_2 (lines st) k ltac:(lia)) as [row Hrow].
  exists row. split; [done|]. by eapply Forall_lookup_1.
Qed.

Lemma ok_line_text (st : OLED) (k : Z) :
  ok st → 0 ≤ k < 10 →
  ∃ row, lines st !! Z.to_nat k = Some row
         ∧ line_text st k
           = Some (String.string_of_list_ascii (c_content row)).
Proof.
  intros Hok Hk. destruct (ok_row st (Z.to_nat k) Hok ltac:(lia))
    as (row & Hrow & Hterm).
  exists row. split; [done|]. unfold line_text. rewrite Hrow.
  cbn [mbind option_bind]. by destruct (terminated_c_str row Hterm) as [-> _].
Qed.

(** A state whose [dataChanged] is set is redrawn. *)
Lemma redraw_ok (st : OLED) :
  ok st → dataChanged st = true →
  ∃ evs,
    (l0 ← line_text st (0 + lineIndex st * MAX_LINES);
     l1 ← line_text st (1 + lineIndex st * MAX_LINES);
     l2 ← line_text st (2 + lineIndex st * MAX_LINES);
     l3 ← line_text st (3 + lineIndex st * MAX_LINES);
     l4 ← line_text st (4 + lineIndex st * MAX_LINES);
     Some ({| lines := lines st; lineIndex := lineIndex st;
              lastPageUpdate := lastPageUpdate st; dataChanged := false |},
           [ display_clear;
             display_drawString 0 0 l0; display_drawString 0 13 l1;
             display_drawString 0 25 l2; display_drawString 0 38 l3;
             display_drawString 0 51 l4;
             display_display ]))
    = Some ({| lines := lines st; lineIndex := lineIndex st;
               lastPageUpdate := lastPageUpdate st; dataChanged := false |},
            evs)
    ∧ drawn {| lines := lines st; lineIndex := lineIndex st;
               lastPageUpdate := lastPageUpdate st; dataChanged := false |}
            evs.
Proof.
  intros Hok _. pose proof Hok as (_ & _ & Hidx).
  unfold MAX_LINES.
  destruct (ok_line_text st (0 + lineIndex st * 5) Hok ltac:(lia))
    as (r0 & _ & H0).
  destruct (ok_line_text st (1 + lineIndex st * 5) Hok ltac:(lia))
    as (r1 & _ & H1).
  destruct (ok_line_text st (2 + lineIndex st * 5) Hok ltac:(lia))
    as (r2 & _ & H2).
  destruct (ok_line_text st (3 + lineIndex st * 5) Hok ltac:(lia))
    as (r3 & _ & H3).
  destruct (ok_line_text st (4 + lineIndex st * 5) Hok ltac:(lia))
    as (r4 & _ & H4).
  rewrite H0, H1, H2, H3, H4. cbn [mbind option_bind].
  eexists. split; [done|].
  unfold drawn, MAX_LINES. do 5 eexists. split; [done|].
  by repeat split.
Qed.

Lemma updateScreen_ok (millis1 millis2 : Z) (st : OLED) :
  ok st →
  ∃ st' evs,
    updateScreen millis1 millis2 st = Some (st', evs)
    ∧ ok st' ∧ lines st' = lines st ∧ dataChanged st' = false
    ∧ (if decide ((millis1 - lastPageUpdate st) mod 2 ^ 32 > PAGE_DURATION)
       then lineIndex st' = 1 - lineIndex st
            ∧ lastPageUpdate st' = to_long millis2 ∧ drawn st' evs
       else lineIndex st' = lineIndex st
            ∧ lastPageUpdate st' = lastPageUpdate st
            ∧ if dataChanged st then drawn st' evs else evs = []).
Proof.
  intros Hok. pose proof Hok as (Hlen & Hrows & Hidx).
  unfold updateScreen.
  destruct (decide ((millis1 - lastPageUpdate st) mod 2 ^ 32 > PAGE_DURATION))
    as [Hflip|Hstay].
  - pose (st1 := {| lines := lines st;
                    lineIndex :=
                      if decide ((lineIndex st + 1) mod 256 > MAX_PAGES - 1)
                      then 0 else (lineIndex st + 1) mod 256;
                    lastPageUpdate := to_long millis2;
                    dataChanged := true |}).
    assert (lineIndex st1 = 1 - lineIndex st) as Hnew.
    { subst st1. cbn. unfold MAX_PAGES. repeat case_decide; lia. }
    assert (ok st1) as Hok1.
    { split; [done|]. split; [done|]. rewrite Hnew. lia. }
    destruct (redraw_ok st1 Hok1 eq_refl) as (evs & Heq & Hdrawn).
    eexists _, evs. split; [exact Heq|].
    split; [exact Hok1|].
    split; [done|]. split; [done|]. split; [exact Hnew|]. by split.
  - destruct (dataChanged st) eqn:Hchanged.
    + destruct (redraw_ok st Hok Hchanged) as (evs & -> & Hdrawn).
      do 2 eexists. split; [done|]. split; [exact Hok|]. by repeat split.
    + do 2 eexists. split; [done|]. split; [exact Hok|]. by repeat split.
Qed.

Lemma set_line_ok (i : nat) text (ls : list (list ascii)) :
  rows_ok ls → (i < 10)%nat →
  ∃ ls' row',
    set_line i text ls = Some ls' ∧ rows_ok ls'
    ∧ ls' !! i = Some row' ∧ c_content row' = take 39 (c_content text)
    ∧ ∀ k, k ≠ i → ls' !! k = ls !! k.
Proof.
  intros [Hlen Hrows] Hi. unfold set_line.
  destruct (lookup_lt_is_Some_2 ls i ltac:(lia)) as [row Hrow].
  rewrite Hrow. cbn [mbind option_bind].
  pose proof (Forall_lookup_1 _ _ _ _ Hrows Hrow) as Hterm.
  destruct (strncpy_39 row text Hterm) as [Hterm' Hcontent].
  do 2 eexists. split; [done|]. split; [|split; [|split]].
  - split; [by rewrite length_insert|]. by apply Forall_insert.
  - apply list_lookup_insert_eq. lia.
  - done.
  - intros k Hk. by apply list_lookup_insert_ne.
Qed.

Lemma copy_line_ok (j i : nat) (ls : list (list ascii)) :
  rows_ok ls → (i < 10)%nat → (j < 10)%nat →
  ∃ ls' src row',
    copy_line j i ls = Some ls' ∧ rows_ok ls'
    ∧ ls !! i = Some src ∧ ls' !! j = Some row'
    ∧ c_content row' = c_content src
    ∧ ∀ k, k ≠ j → ls' !! k = ls !! k.
Proof.
  intros [Hlen Hrows] Hi Hj. unfold copy_line.
  destruct (lookup_lt_is_Some_2 ls i ltac:(lia)) as [src Hsrc].
  destruct (lookup_lt_is_Some_2 ls j ltac:(lia)) as [row Hrow].
  rewrite Hsrc, Hrow. cbn [mbind option_bind].
  pose proof (Forall_lookup_1 _ _ _ _ Hrows Hsrc) as Hterm.
  pose proof (Forall_lookup_1 _ _ _ _ Hrows Hrow) as [Hrowlen _].
  destruct (strncpy_40 row src Hrowlen Hterm) as [Hterm' Hcontent].
  do 3 eexists. split; [done|]. split; [|split; [|split; [|split]]].
  - split; [by rewrite length_insert|]. by apply Forall_insert.
  - done.
  - apply list_lookup_insert_eq. lia.
  - done.
  - intros k Hk. by apply list_lookup_insert_ne.
Qed.

Lemma string_append_assoc (s1 s2 s3 : string) :
  (s1 +:+ s2) +:+ s3 = s1 +:+ (s2 +:+ s3).
Proof.
  induction s1 as [|c s1 IH]; [done|].
  change (String c ((s1 +:+ s2) +:+ s3) = String c (s1 +:+ (s2 +:+ s3))).
  by f_equal.
Qed.

Lemma rows_ok_line_text (st : OLED) (k : Z) row :
  lines st !! Z.to_nat k = Some row → terminated row →
  line_text st k = Some (String.string_of_list_ascii (c_content row)).
Proof.
  intros Hrow Hterm. unfold line_text. rewrite Hrow.
  cbn [mbind option_bind]. by destruct (terminated_c_str row Hterm) as [-> _].
Qed.

(** The common end of the update functions: the new rows are stored,
    [dataChanged] is set and [updateScreen] redraws. *)
Lemma update_finish (st : OLED) (ls : list (list ascii))
    (millis1 millis2 : Z) :
  ok st → rows_ok ls →
  ∃ st' evs,
    updateScreen millis1 millis2 (changed st ls) = Some (st', evs)
    ∧ ok st' ∧ lines st' = ls ∧ dataChanged st' = false ∧ drawn st' evs.
Proof.
  intros (_ & _ & Hidx) [Hlen Hrows].
  assert (ok (changed st ls)) as Hok
    by (split; [done|]; split; [done|]; exact Hidx).
  destruct (updateScreen_ok millis1 millis2 (changed st ls) Hok)
    as (st' & evs & Hrun & Hok' & Hlines & Hclean & Hcases).
  exists st', evs.
  split; [done|]. split; [done|]. split; [done|]. split; [done|].
  case_decide; [apply Hcases|]. by destruct Hcases as (_ & _ & Hdrawn).
Qed.

(** X14: on a well-formed display state [updateScreen] is defined, keeps
    the text and the well-formedness and clears [dataChanged].  If more than
    2000 ms (modulo 2^32) have passed since the last page change, it changes
    to the other page, stores the time and redraws; otherwise it keeps the
    page and redraws only if [dataChanged] was set. *)
Theorem updateScreen_behaviour (millis1 millis2 : Z) (st : OLED) :
  ok st →
  ∃ st' evs,
    updateScreen millis1 millis2 st = Some (st', evs)
    ∧ ok st' ∧ lines st' = lines st ∧ dataChanged st' = false
    ∧ (if decide ((millis1 - lastPageUpdate st) mod 2 ^ 32 > PAGE_DURATION)
       then lineIndex st' = 1 - lineIndex st
            ∧ lastPageUpdate st' = to_long millis2 ∧ drawn st' evs
       else lineIndex st' = lineIndex st
            ∧ lastPageUpdate st' = lastPageUpdate st
            ∧ if dataChanged st then drawn st' evs else evs = []).
Proof. apply updateScreen_ok. Qed.

Lemma updateAction_spec (message : string) (millis1 millis2 : Z)
    (st : OLED) :
  ok st →
  ∃ st' evs,
    updateAction message millis1 millis2 st = Some (st', evs)
    ∧ ok st'
    ∧ line_text st' 4 = Some (shown message)
    ∧ line_text st' 9 = Some (shown message)
    ∧ (∀ k, k ≠ 4%nat → k ≠ 9%nat → lines st' !! k = lines st !! k)
    ∧ drawn st' evs.
Proof.
  intros Hok. pose proof Hok as (Hlen & Hrows & _).
  unfold updateAction.
  destruct (set_line_ok 4 (String.list_ascii_of_string message) (lines st))
    as (ls1 & row4 & -> & Hok1 & Hrow4 & Hc4 & Hrest1); [done|lia|].
  cbn [mbind option_bind].
  destruct (copy_line_ok 9 4 ls1)
    as (ls2 & src & row9 & -> & Hok2 & Hsrc & Hrow9 & Hc9 & Hrest2);
    [done|lia..|].
  cbn [mbind option_bind].
  destruct (update_finish st ls2 millis1 millis2 Hok Hok2)
    as (st' & evs & Hrun & Hok' & Hlines & _ & Hdrawn).
  exists st', evs. split; [done|]. split; [done|].
  rewrite Hrow4 in Hsrc. injection Hsrc as <-.
  destruct Hok2 as [_ Hrows2].
  split; [|split; [|split]]; [| | |done].
  - rewrite (rows_ok_line_text st' 4 row4).
    + by rewrite Hc4.
    + change (Z.to_nat 4) with 4%nat. rewrite Hlines, Hrest2 by done. done.
    + apply (Forall_lookup_1 _ _ 4%nat _ Hrows2). by rewrite Hrest2 by done.
  - rewrite (rows_ok_line_text st' 9 row9).
    + by rewrite Hc9, Hc4.
    + change (Z.to_nat 9) with 9%nat. by rewrite Hlines.
    + by eapply Forall_lookup_1.
  - intros k H4 H9. by rewrite Hlines, Hrest2, Hrest1.
Qed.

Lemma updateHunterInfo_spec (zone time program : Z)
    (millis1 millis2 : Z) (st : OLED) :
  ok st →
  ∃ st' evs,
    updateHunterInfo zone time program millis1 millis2 st = Some (st', evs)
    ∧ ok st'
    ∧ line_text st' 0
      = Some (shown
                (if decide (program ≠ 0)
                 then "Prog " +:+ String_of_int program +:+ " started"
                 else if decide (time ≠ 0)
                 then "Zone: " +:+ String_of_int zone +:+ " on for "
                      +:+ String_of_int time +:+ " min"
                 else "Zone: " +:+ String_of_int zone +:+ " off"))
    ∧ line_text st' 5 = line_text st' 0
    ∧ (∀ k, k ≠ 0%nat → k ≠ 5%nat → lines st' !! k = lines st !! k)
    ∧ drawn st' evs.
Proof.
  intros Hok. pose proof Hok as (Hlen & Hrows & _).
  unfold updateHunterInfo.
  set (message := updateHunterInfo_message zone time program).
  destruct (set_line_ok 0 (String.list_ascii_of_string message) (lines st))
    as (ls1 & row0 & -> & Hok1 & Hrow0 & Hc0 & Hrest1); [done|lia|].
  cbn [mbind option_bind].
  destruct (copy_line_ok 5 0 ls1)
    as (ls2 & src & row5 & -> & Hok2 & Hsrc & Hrow5 & Hc5 & Hrest2);
    [done|lia..|].
  cbn [mbind option_bind].
  destruct (update_finish st ls2 millis1 millis2 Hok Hok2)
    as (st' & evs & Hrun & Hok' & Hlines & _ & Hdrawn).
  exists st', evs. split; [done|]. split; [done|].
  rewrite Hrow0 in Hsrc. injection Hsrc as <-.
  destruct Hok2 as [_ Hrows2].
  assert (line_text st' 0 = Some (shown message)) as H0.
  { rewrite (rows_ok_line_text st' 0 row0).
    - by rewrite Hc0.
    - change (Z.to_nat 0) with 0%nat. rewrite Hlines, Hrest2 by done. done.
    - apply (Forall_lookup_1 _ _ 0%nat _ Hrows2). by rewrite Hrest2 by done. }
  split; [|split; [|split]]; [| | |done].
  - rewrite H0. subst message. unfold updateHunterInfo_message.
    repeat case_decide; try done.
    all: by rewrite string_append_assoc.
  - rewrite H0, (rows_ok_line_text st' 5 row5).
    + by rewrite Hc5, Hc0.
    + change (Z.to_nat 5) with 5%nat. by rewrite Hlines.
    + by eapply Forall_lookup_1.
  - intros k H0' H5. by rewrite Hlines, Hrest2, Hrest1.
Qed.

(** X15: [updateAction] stores the message, cut after 39 characters, in
    row 4 and copies it to row 9, so both pages show it; no other row
    changes, the state stays well formed and the screen is redrawn. *)
Theorem updateAction_shows (message : string) (millis1 millis2 : Z)
    (st : OLED) :
  ok st →
  ∃ st' evs,
    updateAction message millis1 millis2 st = Some (st', evs)
    ∧ ok st'
    ∧ line_text st' 4 = Some (shown message)
    ∧ line_text st' 9 = Some (shown message)
    ∧ (∀ k, k ≠ 4%nat → k ≠ 9%nat → lines st' !! k = lines st !! k)
    ∧ drawn st' evs.
Proof. apply updateAction_spec. Qed.

(** X16: [updateHunterInfo] stores its message in row 0 and copies it to
    row 5: "Prog <program> started" if [program] is not 0, otherwise
    "Zone: <zone>" followed by " on for <time> min" or, for time 0,
    " off"; always cut after 39 characters. *)
Theorem updateHunterInfo_shows (zone time program : Z)
    (millis1 millis2 : Z) (st : OLED) :
  ok st →
  ∃ st' evs,
    updateHunterInfo zone time program millis1 millis2 st = Some (st', evs)
    ∧ ok st'
    ∧ line_text st' 0
      = Some (shown
                (if decide (program ≠ 0)
                 then "Prog " +:+ String_of_int program +:+ " started"
                 else if decide (time ≠ 0)
                 then "Zone: " +:+ String_of_int zone +:+ " on for "
                      +:+ String_of_int time +:+ " min"
                 else "Zone: " +:+ String_of_int zone +:+ " off"))
    ∧ line_text st' 5 = line_text st' 0
    ∧ (∀ k, k ≠ 0%nat → k ≠ 5%nat → lines st' !! k = lines st !! k)
    ∧ drawn st' evs.
Proof. apply updateHunterInfo_spec. Qed.

Lemma blank_ok : ok blank.
Proof.
  split; [done|]. split; [|done].
  unfold blank. cbn [lines]. apply Forall_replicate. by split.
Qed.

Lemma updateScreen_behaviour_witness :
  ∃ st' evs,
    updateScreen 2500 2501 blank = Some (st', evs)
    ∧ lineIndex st' = 1 ∧ lastPageUpdate st' = 2501.
Proof.
  destruct (updateScreen_behaviour 2500 2501 blank blank_ok)
    as (st' & evs & Hrun & _ & _ & _ & Hcases).
  rewrite decide_True in Hcases by (vm_compute; reflexivity).
  destruct Hcases as (Hidx & Hlast & _).
  exists st', evs. split; [exact Hrun|]. split; [exact Hidx | exact Hlast].
Defined.

Lemma updateAction_shows_witness :
  ∃ st' evs,
    updateAction "Watering zone 1 -> 1 min" 0 0 blank = Some (st', evs)
    ∧ line_text st' 4 = Some (shown "Watering zone 1 -> 1 min").
Proof.
  destruct (updateAction_shows "Watering zone 1 -> 1 min" 0 0 blank blank_ok)
    as (st' & evs & Hrun & _ & H4 & _).
  exists st', evs. split; [exact Hrun | exact H4].
Defined.

Lemma updateHunterInfo_shows_witness :
  ∃ st' evs,
    updateHunterInfo 0 0 3 0 0 blank = Some (st', evs)
    ∧ line_text st' 5 = line_text st' 0.
Proof.
  destruct (updateHunterInfo_shows 0 0 3 0 0 blank blank_ok)
    as (st' & evs & Hrun & _ & _ & H5 & _).
  exists st', evs. split; [exact Hrun | exact H5].
Defined.

(** The loop of [initialize] rewrites rows [i .. i + count - 1]. *)
Lemma initialize_loop_spec (count : nat) :
  ∀ (i : nat) (ls : list (list ascii)),
    (i + count ≤ length ls)%nat →
    ∃ ls',
      initialize_loop count i ls = Some ls'
      ∧ length ls' = length ls
      ∧ ∀ k, ls' !! k
             = if decide (i ≤ k < i + count)%nat
               then (λ row, replicate 39 NUL ++ drop 39 row) <$> ls !! k
               else ls !! k.
Proof.
  induction count as [|count IH]; intros i ls Hfit.
  - exists ls. split; [done|]. split; [done|]. intros k.
    by rewrite decide_False by lia.
  - cbn [initialize_loop]. unfold set_line.
    destruct (lookup_lt_is_Some_2 ls i ltac:(lia)) as [row Hrow].
    rewrite Hrow. cbn [mbind option_bind].
    destruct (IH (S i) (<[i := strncpy row [] (MAX_CHAR_IN_LINE - 1)]> ls))
      as (ls' & Hrun & Hlen & Hrows); [rewrite length_insert; lia|].
    exists ls'. split; [done|]. rewrite Hlen, length_insert.
    split; [done|]. intros k. rewrite Hrows.
    destruct (decide (k = i)) as [->|Hk].
    + rewrite decide_False, decide_True by lia.
      rewrite list_lookup_insert_eq by lia. by rewrite Hrow.
    + rewrite list_lookup_insert_ne by done.
      repeat case_decide; (done || lia).
Qed.

(** X17: [initialize] fills the first 39 characters of rows 1 to 9 with
    NUL, sets [dataChanged] and sets up the driver.  It never writes row 0
    and never writes the last character of a row: those keep what they held
    before. *)
Theorem initialize_clears (st : OLED) :
  length (lines st) = 10%nat →
  ∃ st',
    initialize st
    = Some (st', [ display_init; display_clear; display_flipScreenVertically;
                   display_setFont ArialMT_Plain_16;
                   display_setTextAlignment_LEFT;
                   display_setFont ArialMT_Plain_10 ])
    ∧ lines st' !! 0%nat = lines st !! 0%nat
    ∧ (∀ (k : nat) row,
         (1 ≤ k)%nat → lines st !! k = Some row →
         lines st' !! k = Some (replicate 39 NUL ++ drop 39 row))
    ∧ dataChanged st' = true
    ∧ lineIndex st' = lineIndex st
    ∧ lastPageUpdate st' = lastPageUpdate st.
Proof.
  intros Hlen. unfold initialize.
  change (Z.to_nat (ARRAY_LEN - 1)) with 9%nat.
  destruct (initialize_loop_spec 9 1 (lines st))
    as (ls' & -> & Hlen' & Hrows); [lia|].
  cbn [mbind option_bind]. eexists. split; [done|].
  cbn [lines changed dataChanged lineIndex lastPageUpdate].
  split; [by rewrite Hrows|]. split; [|done].
  intros k row Hk Hrow. rewrite Hrows, Hrow.
  apply lookup_lt_Some in Hrow. by rewrite decide_True by lia.
Qed.

Lemma initialize_clears_witness :
  ∃ st', fst <$> initialize blank = Some st'
         ∧ lines st' !! 0%nat = lines blank !! 0%nat.
Proof.
  destruct (initialize_clears blank eq_refl) as (st' & Hrun & H0 & _).
  exists st'. split; [by rewrite Hrun | exact H0].
Defined.

(** For every valid command the texts sent to the display are shorter than
    a row and hold no NUL, so they are shown in full. *)
Lemma messages_fit_zone :
  Forall (λ zone,
            Forall (λ time,
                      shown (startZone_msg zone time)
                      = startZone_msg zone time
                      ∧ shown (updateHunterInfo_message zone time 0)
                        = updateHunterInfo_message zone time 0)
                   (seqZ 0 241))
         (seqZ 1 48).
Proof. apply (bool_decide_unpack _). vm_compute. exact I. Qed.

Lemma messages_fit_program :
  Forall (λ p, shown (startProgram_msg p) = startProgram_msg p
               ∧ shown (updateHunterInfo_message 0 0 p)
                 = updateHunterInfo_message 0 0 p)
         (seqZ 1 4).
Proof. apply (bool_decide_unpack _). vm_compute. exact I. Qed.

(** X18: for a valid zone command the two display calls of [startZone],
    run one after the other on a well-formed display, leave the complete
    action message in rows 4 and 9 and the complete zone text in rows 0 and
    5: nothing is cut off. *)
Theorem startZone_display (zone time : Z) (m1 m2 m3 m4 : Z) (st : OLED) :
  ok st → 1 ≤ zone ≤ 48 → 0 ≤ time ≤ 240 →
  ∃ st1 evs1 st2 evs2,
    updateAction (startZone_msg zone time) m1 m2 st = Some (st1, evs1)
    ∧ updateHunterInfo zone time 0 m3 m4 st1 = Some (st2, evs2)
    ∧ ok st2
    ∧ line_text st2 4 = Some (startZone_msg zone time)
    ∧ line_text st2 9 = Some (startZone_msg zone time)
    ∧ line_text st2 0 = Some (updateHunterInfo_message zone time 0)
    ∧ line_text st2 5 = Some (updateHunterInfo_message zone time 0).
Proof.
  intros Hok Hz Ht.
  assert (shown (startZone_msg zone time) = startZone_msg zone time
          ∧ shown (updateHunterInfo_message zone time 0)
            = updateHunterInfo_message zone time 0) as [Hfit1 Hfit2].
  { pose proof messages_fit_zone as Hall.
    rewrite Forall_forall in Hall.
    specialize (Hall zone ltac:(apply elem_of_seqZ; lia)).
    rewrite Forall_forall in Hall.
    apply Hall, elem_of_seqZ. lia. }
  destruct (updateAction_spec (startZone_msg zone time) m1 m2 st Hok)
    as (st1 & evs1 & Hrun1 & Hok1 & H4 & H9 & _).
  destruct (updateHunterInfo_spec zone time 0 m3 m4 st1 Hok1)
    as (st2 & evs2 & Hrun2 & Hok2 & H0 & H5 & Hrest & _).
  exists st1, evs1, st2, evs2.
  split; [done|]. split; [done|]. split; [done|].
  assert (∀ k : Z, k = 4 ∨ k = 9 → line_text st2 k = line_text st1 k)
    as Hkeep.
  { intros k Hk. unfold line_text. rewrite Hrest; [done|..];
      destruct Hk as [-> | ->]; done. }
  rewrite !Hkeep by auto. rewrite H4, H9, Hfit1.
  split; [done|]. split; [done|].
  rewrite H5, H0. unfold updateHunterInfo_message in *.
  rewrite decide_False in * by lia.
  case_decide; rewrite ?string_append_assoc in *; by rewrite Hfit2.
Qed.

Lemma startZone_display_witness :
  ∃ st1 evs1 st2 evs2,
    updateAction (startZone_msg 13 30) 0 0 blank = Some (st1, evs1)
    ∧ updateHunterInfo 13 30 0 0 0 st1 = Some (st2, evs2)
    ∧ ok st2
    ∧ line_text st2 4 = Some (startZone_msg 13 30)
    ∧ line_text st2 9 = Some (startZone_msg 13 30)
    ∧ line_text st2 0 = Some (updateHunterInfo_message 13 30 0)
    ∧ line_text st2 5 = Some (updateHunterInfo_message 13 30 0).
Proof.
  apply (startZone_display 13 30 0 0 0 0 blank blank_ok); lia.
Defined.

(** X19: for a valid program the two display calls of [startProgram] leave
    "Watering prog <p> ..." in rows 4 and 9 and "Prog <p> started" in rows
    0 and 5, in full.  For program 0, which [HunterProgram] rejects, the
    display call [updateHunterInfo(0, 0, 0)] shows "Zone: 0 off". *)
Theorem startProgram_display (p : Z) (m1 m2 m3 m4 : Z) (st : OLED) :
  ok st → 1 ≤ p ≤ 4 →
  (∃ st1 evs1 st2 evs2,
      updateAction (startProgram_msg p) m1 m2 st = Some (st1, evs1)
      ∧ updateHunterInfo 0 0 p m3 m4 st1 = Some (st2, evs2)
      ∧ ok st2
      ∧ line_text st2 4 = Some ("Watering prog " +:+ String_of_int p +:+ " ...")
      ∧ line_text st2 9 = Some ("Watering prog " +:+ String_of_int p +:+ " ...")
      ∧ line_text st2 0 = Some ("Prog " +:+ String_of_int p +:+ " started")
      ∧ line_text st2 5 = Some ("Prog " +:+ String_of_int p +:+ " started"))
  ∧ (∃ st' evs,
        updateHunterInfo 0 0 0 m3 m4 st = Some (st', evs)
        ∧ line_text st' 0 = Some "Zone: 0 off").
Proof.
  intros Hok Hp. split.
  - assert (shown (startProgram_msg p) = startProgram_msg p
            ∧ shown (updateHunterInfo_message 0 0 p)
              = updateHunterInfo_message 0 0 p) as [Hfit1 Hfit2].
    { pose proof messages_fit_program as Hall.
      rewrite Forall_forall in Hall. apply Hall, elem_of_seqZ. lia. }
    destruct (updateAction_spec (startProgram_msg p) m1 m2 st Hok)
      as (st1 & evs1 & Hrun1 & Hok1 & H4 & H9 & _).
    destruct (updateHunterInfo_spec 0 0 p m3 m4 st1 Hok1)
      as (st2 & evs2 & Hrun2 & Hok2 & H0 & H5 & Hrest & _).
    exists st1, evs1, st2, evs2.
    split; [done|]. split; [done|]. split; [done|].
    assert (∀ k : Z, k = 4 ∨ k = 9 → line_text st2 k = line_text st1 k)
      as Hkeep.
    { intros k Hk. unfold line_text. rewrite Hrest; [done|..];
        destruct Hk as [-> | ->]; done. }
    rewrite !Hkeep by auto. rewrite H4, H9, Hfit1.
    split; [done|]. split; [done|].
    rewrite H5, H0. unfold updateHunterInfo_message in Hfit2.
    rewrite decide_True in * by lia. by rewrite Hfit2.
  - destruct (updateHunterInfo_spec 0 0 0 m3 m4 st Hok)
      as (st' & evs & Hrun & _ & H0 & _).
    exists st', evs. split; [done|]. by rewrite H0.
Qed.

Lemma startProgram_display_witness :
  ∃ st' evs,
    updateHunterInfo 0 0 0 0 0 blank = Some (st', evs)
    ∧ line_text st' 0 = Some "Zone: 0 off".
Proof.
  apply (startProgram_display 1 0 0 0 0 blank blank_ok). lia.
Defined.

(** X20: [updateWifiInfo] puts "SSID: <ssid>" in row 1 and "Own IP: <ip>"
    in row 6, and [updateMqttInfo] puts "Broker: <ip>" in row 2 and
    "MQTT port: <port>" in row 7, both with "X - " in front while not
    connected; each text is cut after 39 characters and ends at the first
    NUL of the argument. *)
Theorem updateWifiInfo_updateMqttInfo_show
    (ip ssid : string) (port : Z) (connected : bool) (m1 m2 : Z) (st : OLED) :
  ok st →
  (∃ st' evs,
      updateWifiInfo ip ssid m1 m2 st = Some (st', evs)
      ∧ ok st'
      ∧ line_text st' 1 = Some (shown ("SSID: " +:+ ssid))
      ∧ line_text st' 6 = Some (shown ("Own IP: " +:+ ip))
      ∧ (∀ k, k ≠ 1%nat → k ≠ 6%nat → lines st' !! k = lines st !! k)
      ∧ drawn st' evs)
  ∧ (∃ st' evs,
        updateMqttInfo ip port connected m1 m2 st = Some (st', evs)
        ∧ ok st'
        ∧ line_text st' 2
          = Some (shown ((if connected then "" else "X - ")
                         +:+ "Broker: " +:+ ip))
        ∧ line_text st' 7
          = Some (shown ((if connected then "" else "X - ")
                         +:+ "MQTT port: " +:+ String_of_int port))
        ∧ (∀ k, k ≠ 2%nat → k ≠ 7%nat → lines st' !! k = lines st !! k)
        ∧ drawn st' evs).
Proof.
  intros Hok. pose proof Hok as (Hlen & Hrows & _).
  assert (∀ (i j : nat) (a b : string),
            (i < 10)%nat → (j < 10)%nat → i ≠ j →
            ∃ st' evs,
              (ls ← set_line i (String.list_ascii_of_string a) (lines st);
               ls ← set_line j (String.list_ascii_of_string b) ls;
               updateScreen m1 m2 (changed st ls)) = Some (st', evs)
              ∧ ok st'
              ∧ line_text st' (Z.of_nat i) = Some (shown a)
              ∧ line_text st' (Z.of_nat j) = Some (shown b)
              ∧ (∀ k, k ≠ i → k ≠ j → lines st' !! k = lines st !! k)
              ∧ drawn st' evs) as Htwo.
  { intros i j a b Hi Hj Hij.
    destruct (set_line_ok i (String.list_ascii_of_string a) (lines st))
      as (ls1 & rowi & -> & Hok1 & Hrowi & Hci & Hrest1); [done|lia|].
    cbn [mbind option_bind].
    destruct (set_line_ok j (String.list_ascii_of_string b) ls1)
      as (ls2 & rowj & -> & Hok2 & Hrowj & Hcj & Hrest2); [done|lia|].
    cbn [mbind option_bind].
    destruct (update_finish st ls2 m1 m2 Hok Hok2)
      as (st' & evs & Hrun & Hok' & Hlines & _ & Hdrawn).
    exists st', evs. split; [done|]. split; [done|].
    destruct Hok2 as [_ Hrows2].
    split; [|split; [|split]]; [| | |done].
    - rewrite (rows_ok_line_text st' (Z.of_nat i) rowi).
      + by rewrite Hci.
      + rewrite Nat2Z.id, Hlines, Hrest2 by done. done.
      + apply (Forall_lookup_1 _ _ i _ Hrows2). by rewrite Hrest2 by done.
    - rewrite (rows_ok_line_text st' (Z.of_nat j) rowj).
      + by rewrite Hcj.
      + by rewrite Nat2Z.id, Hlines.
      + by eapply Forall_lookup_1.
    - intros k Hki Hkj. by rewrite Hlines, Hrest2, Hrest1. }
  split.
  - apply (Htwo 1%nat 6%nat); (lia || done).
  - destruct (Htwo 2%nat 7%nat
                ((if connected then "" else "X - ") +:+ "Broker: " +:+ ip)
                ((if connected then "" else "X - ") +:+ "MQTT port: "
                 +:+ String_of_int port))
      as (st' & evs & Hrun & Hrest); [lia | lia | done |].
    exists st', evs. split; [|exact Hrest].
    rewrite <- Hrun. unfold updateMqttInfo. by destruct connected.
Qed.

Lemma updateWifiInfo_updateMqttInfo_show_witness :
  ∃ st' evs,
    updateMqttInfo "10.10.2.1" 1883 false 0 0 blank = Some (st', evs)
    ∧ line_text st' 7 = Some (shown "X - MQTT port: 1883").
Proof.
  destruct (updateWifiInfo_updateMqttInfo_show "10.10.2.1" "home" 1883 false
              0 0 blank blank_ok)
    as (_ & st' & evs & Hrun & _ & _ & H7 & _).
  exists st', evs. split; [exact Hrun | exact H7].
Defined.

End OledFacts.

(** ** Splitting a field write *)

Section BitfieldSplit.

Lemma to_byte_add_succ (pos : Z) (n : nat) :
  to_byte (to_byte (pos + 1) + Z.of_nat n) = to_byte (pos + Z.of_nat (S n)).
Proof.
  unfold to_byte. rewrite Zplus_mod_idemp_l. f_equal. lia.
Qed.

Lemma HunterBitfield_loop_split (n m : nat) :
  ∀ bits pos val,
    HunterBitfield_loop (n + m) bits pos val
    = (b ← HunterBitfield_loop n bits pos val;
       HunterBitfield_loop m b (if n is O then pos
                                else to_byte (pos + Z.of_nat n))
                           (Z.shiftr val (Z.of_nat n))).
Proof.
  induction n as [|n IH]; intros bits pos val; [done|].
  cbn [Nat.add HunterBitfield_loop].
  destruct (bits !! Z.to_nat (pos / 8)) as [cur|]; [|done].
  cbn [mbind option_bind]. rewrite IH.
  destruct (HunterBitfield_loop n _ _ _) as [b|]; [|done].
  cbn [mbind option_bind].
  rewrite Z.shiftr_shiftr by lia.
  replace (1 + Z.of_nat n) with (Z.of_nat (S n)) by lia.
  destruct n as [|n]; [done|].
  by rewrite to_byte_add_succ.
Qed.

End BitfieldSplit.

(** X21: a field write of [n + m] bits is the write of its low [n] bits
    followed by the write of the remaining [m] bits of the value at the
    position [n] places further, counted modulo 256 as the byte-sized
    position counter does.  This holds for all arguments, also where the
    position wraps or the write runs out of the vector. *)
Theorem HunterBitfield_split (bits : list Z) (pos val n m : Z) :
  is_byte pos → 0 < n → 0 ≤ m →
  HunterBitfield bits pos val (n + m)
  = (b ← HunterBitfield bits pos val n;
     HunterBitfield b (to_byte (pos + n)) (Z.shiftr val n) m).
Proof.
  intros Hpos Hn Hm. unfold HunterBitfield.
  rewrite Z2Nat.inj_add, HunterBitfield_loop_split by lia.
  rewrite Z2Nat.id by lia.
  destruct (Z.to_nat n) eqn:Hnat; [lia|]. done.
Qed.

Lemma HunterBitfield_split_witness :
  HunterBitfield (replicate 33 0) 255 3 (1 + 1)
  = (b ← HunterBitfield (replicate 33 0) 255 3 1;
     HunterBitfield b (to_byte (255 + 1)) (Z.shiftr 3 1) 1).
Proof.
  apply (HunterBitfield_split (replicate 33 0) 255 3 1 1);
    unfold is_byte; lia.
Defined.
